(** * go-cert-provider: provider registry, bootstrap manager, token
      issuer/verifier and session tracker

    A shallow embedding of

      - [cert/domain] (the interfaces)         (module [domain])
      - [cert/registry/registry.go]           (module [registry])
      - [cert/registry/bootstrap_manager.go]  (module [registry])
      - [session/session.go]                  (module [session])
      - [auth/jwt.go]                         (module [auth])
        with the JWT library it calls          (modules [jwt], [utf8])
      - [cert/providers/porkbun/client.go], the provider
                                              (module [porkbun])
      - [cert/providers/porkbun/bootstrap.go] (module [porkbun])
      - [cert/init.go]                        (module [cert])

    Go maps are stdpp [gmap]s, Go errors are inductive types that keep the
    arguments of the [fmt.Errorf] format strings, and a method that
    mutates its receiver returns the new receiver next to its result. *)

From Stdlib Require Import ZArith.
From stdpp Require Import gmap strings list fin_maps.

Local Open Scope string_scope.

(** ** cert/domain: the two interfaces *)

Module domain.

(** The interface [CertificateProvider].  A provider is behind a
    pointer that the registry never writes through, and the registry
    calls [GetProviderName], [GetDomains] and [ValidateConfiguration]
    only: an implementation is the values these return
    ([ValidateConfiguration] is [None] for a nil error).
    [GetDomainInfo], [ListDomainInfo] and [RetrieveCertificate] are not
    part of what follows. *)
Record CertificateProvider : Type := {
  GetProviderName : string;
  GetDomains : list string;
  ValidateConfiguration : option string;
}.

(** The interface [ProviderBootstrap].  Its [GetProviderName] is
    [BootstrapName] here, the fields of two records sharing one name
    space.  [IsConfigured] has no side effect; [CreateProvider] is the
    outcome of the discovery it performs, an error on the left or the
    provider on the right.  The two are what the bootstrap answers in
    one run of [InitializeProviders], which asks each bootstrap once;
    another run asks anew, and is a run over the answers given then.
    [RegisterFlags] only concerns the command line. *)
Record ProviderBootstrap : Type := {
  BootstrapName : string;
  IsConfigured : bool;
  CreateProvider : string + CertificateProvider;
}.

End domain.

(** ** cert/registry *)

Module registry.
Import domain.

(** The errors built by [fmt.Errorf] in registry.go and
    bootstrap_manager.go, with the values substituted in the message. *)
Inductive Error : Type :=
| ErrAlreadyRegistered (providerName : string)
    (* "provider %s is already registered" *)
| ErrConfigurationInvalid (providerName : string) (err : string)
    (* "provider %s configuration invalid: %w" *)
| ErrDomainAlreadyManaged (domainName : string) (existingProvider : string)
    (* "domain %s is already managed by provider %s" *)
| ErrNoProviderForDomain (domainName : string)
    (* "no provider found for domain: %s" *)
| ErrProviderNotFound (providerName : string)
    (* "provider not found: %s" *)
| ErrCreateProvider (bootstrapName : string) (err : string)
    (* "failed to create provider %s: %w" *)
| ErrRegisterProvider (bootstrapName : string) (err : Error)
    (* "failed to register provider %s: %w" *)
| ErrNoProvidersConfigured.
    (* "no certificate providers configured" *)

Record CertificateProviderRegistry : Type := {
  providers : gmap string CertificateProvider;  (* key: provider name *)
  domainMap : gmap string CertificateProvider;  (* key: domain name *)
}.

Definition NewCertificateProviderRegistry : CertificateProviderRegistry :=
  {| providers := ∅; domainMap := ∅ |}.

(** The [for _, domain := range provider.GetDomains()] loop of
    [Register]: it writes [r.domainMap] as it goes and returns from the
    middle at the first domain that is already a key. *)
Fixpoint claimDomains (provider : CertificateProvider)
    (domains : list string) (dm : gmap string CertificateProvider)
    : gmap string CertificateProvider * option Error :=
  match domains with
  | [] => (dm, None)
  | d :: rest =>
      match dm !! d with
      | Some existingProvider =>
          (dm, Some (ErrDomainAlreadyManaged d (GetProviderName existingProvider)))
      | None => claimDomains provider rest (<[d := provider]> dm)
      end
  end.

(** [Register]: the registry after the call and the error, [None] for
    nil. *)
Definition Register (r : CertificateProviderRegistry)
    (provider : CertificateProvider)
    : CertificateProviderRegistry * option Error :=
  let providerName := GetProviderName provider in
  match providers r !! providerName with
  | Some _ => (r, Some (ErrAlreadyRegistered providerName))
  | None =>
      match ValidateConfiguration provider with
      | Some err => (r, Some (ErrConfigurationInvalid providerName err))
      | None =>
          let providers' := <[providerName := provider]> (providers r) in
          let '(dm, res) :=
            claimDomains provider (GetDomains provider) (domainMap r) in
          ({| providers := providers'; domainMap := dm |}, res)
      end
  end.

Definition GetProviderForDomain (r : CertificateProviderRegistry)
    (domainName : string) : Error + CertificateProvider :=
  match domainMap r !! domainName with
  | None => inl (ErrNoProviderForDomain domainName)
  | Some provider => inr provider
  end.

Definition GetProvider (r : CertificateProviderRegistry)
    (providerName : string) : Error + CertificateProvider :=
  match providers r !! providerName with
  | None => inl (ErrProviderNotFound providerName)
  | Some provider => inr provider
  end.

(** [ListProviders] and [ListDomains] range over a Go map: the order is
    unspecified, the elements are the keys. *)
Definition ListProviders (r : CertificateProviderRegistry) : list string :=
  (map_to_list (providers r)).*1.

Definition ListDomains (r : CertificateProviderRegistry) : list string :=
  (map_to_list (domainMap r)).*1.

(** *** bootstrap_manager.go *)

Record BootstrapManager : Type := {
  bootstraps : list ProviderBootstrap;
  registry : CertificateProviderRegistry;
}.

Definition NewBootstrapManager (r : CertificateProviderRegistry)
    : BootstrapManager :=
  {| bootstraps := []; registry := r |}.

Definition RegisterBootstrap (bm : BootstrapManager)
    (bootstrap : ProviderBootstrap) : BootstrapManager :=
  {| bootstraps := bootstraps bm ++ [bootstrap]; registry := registry bm |}.

(** The loop of [InitializeProviders], threading the registry and
    [configuredCount]; an error on the left is an early [return]. *)
Fixpoint initializeLoop (bs : list ProviderBootstrap)
    (r : CertificateProviderRegistry) (configuredCount : nat)
    : CertificateProviderRegistry * (Error + nat) :=
  match bs with
  | [] => (r, inr configuredCount)
  | bootstrap :: rest =>
      if negb (IsConfigured bootstrap) then
        initializeLoop rest r configuredCount
      else
        match CreateProvider bootstrap with
        | inl err => (r, inl (ErrCreateProvider (BootstrapName bootstrap) err))
        | inr provider =>
            match Register r provider with
            | (r', Some err) =>
                (r', inl (ErrRegisterProvider (BootstrapName bootstrap) err))
            | (r', None) => initializeLoop rest r' (S configuredCount)
            end
        end
  end.

Definition InitializeProviders (bm : BootstrapManager)
    : BootstrapManager * option Error :=
  let '(r, res) := initializeLoop (bootstraps bm) (registry bm) 0 in
  let bm' := {| bootstraps := bootstraps bm; registry := r |} in
  match res with
  | inl err => (bm', Some err)
  | inr configuredCount =>
      if Nat.eqb configuredCount 0
      then (bm', Some ErrNoProvidersConfigured)
      else (bm', None)
  end.

Definition GetConfiguredProviders (bm : BootstrapManager) : list string :=
  BootstrapName <$> filter (λ b, IsConfigured b = true) (bootstraps bm).

(** The registries that calls of [Register] produce from a new one,
    whatever the calls returned. *)
Inductive reachable : CertificateProviderRegistry → Prop :=
| reachable_new : reachable NewCertificateProviderRegistry
| reachable_Register r provider :
    reachable r → reachable (Register r provider).1.

(** A registry in which every domain points to a provider that is in
    the provider map under its own name and that lists the domain, and
    every provider is under its own name with a valid configuration. *)
Definition consistent (r : CertificateProviderRegistry) : Prop :=
  (∀ d p, domainMap r !! d = Some p →
     providers r !! GetProviderName p = Some p ∧ d ∈ GetDomains p) ∧
  (∀ n p, providers r !! n = Some p →
     GetProviderName p = n ∧ ValidateConfiguration p = None).


End registry.

(** ** Go's [time] package, as far as the sources use it

    An instant is its number of nanoseconds since the Unix epoch; a
    [time.Duration] is a number of nanoseconds.  [time.Now()] is an
    argument [now] of every function that reads the clock. *)

Module time.

Definition Time : Type := Z.
Definition Duration : Type := Z.

Definition Nanosecond : Duration := 1%Z.
Definition Second : Duration := 1000000000%Z.
Definition Minute : Duration := (60 * Second)%Z.
Definition Hour : Duration := (60 * Minute)%Z.

Definition Add (t : Time) (d : Duration) : Time := (t + d)%Z.
Definition Sub (t u : Time) : Duration := (t - u)%Z.
Definition Before (t u : Time) : bool := (t <? u)%Z.
Definition After (t u : Time) : bool := (u <? t)%Z.
Definition Equal (t u : Time) : bool := (t =? u)%Z.

(** [t.Truncate(d)] rounds [t] down to a multiple of [d]; for [d <= 0]
    it returns [t] unchanged. *)
Definition Truncate (t : Time) (d : Duration) : Time :=
  if (d <=? 0)%Z then t else (t - t mod d)%Z.

(** The zero value [time.Time{}]: January 1 of year 1, 00:00:00 UTC. *)
Definition zero : Time := (-62135596800 * Second)%Z.


End time.

(** ** session/session.go *)

Module session.

Record UserSession : Type := {
  SessionID : string;
  UserID : string;
  Description : string;
  ExpireDate : time.Time;
  AllowedDomains : list string;
  CreatedAt : time.Time;
  LastAccessedAt : time.Time;
}.

(** [Manager.sessions] maps a session ID to a pointer; the pointer is
    only ever reached through the map, so the map holds the record and a
    write through the pointer is a write to the map entry. *)
Record Manager : Type := {
  sessions : gmap string UserSession;
}.

Definition NewManager : Manager := {| sessions := ∅ |}.

(** A goroutine started with [go]: the only one [GetSession] starts is
    [go sm.DeleteSession(sessionID)]. *)
Inductive Goroutine : Type :=
| GoDeleteSession (sessionID : string).

(** [CreateSession]; [uuid] is the value of [uuid.New().String()] and
    [now] that of [time.Now()]. *)
Definition CreateSession (sm : Manager) (uuid : string) (now : time.Time)
    (userID description : string) (expireDate : time.Time)
    (allowedDomains : list string) : Manager * string :=
  let sessionID := uuid in
  let sessionExpiry := time.Add now (30 * time.Minute)%Z in
  let sessionExpiry :=
    if time.Before expireDate sessionExpiry then expireDate
    else sessionExpiry in
  let session :=
    {| SessionID := sessionID;
       UserID := userID;
       Description := description;
       ExpireDate := sessionExpiry;
       AllowedDomains := allowedDomains;
       CreatedAt := now;
       LastAccessedAt := now |} in
  ({| sessions := <[sessionID := session]> (sessions sm) |}, sessionID).

Definition touch (s : UserSession) (now : time.Time) : UserSession :=
  {| SessionID := SessionID s;
     UserID := UserID s;
     Description := Description s;
     ExpireDate := ExpireDate s;
     AllowedDomains := AllowedDomains s;
     CreatedAt := CreatedAt s;
     LastAccessedAt := now |}.

(** [GetSession]: the manager after the call, the session ([None] for
    [nil, false]) and the goroutines it started.  It reads the clock
    twice: [now] for the expiry check and [accessed] for
    [LastAccessedAt]. *)
Definition GetSession (sm : Manager) (sessionID : string)
    (now accessed : time.Time)
    : Manager * option UserSession * list Goroutine :=
  match sessions sm !! sessionID with
  | None => (sm, None, [])
  | Some session =>
      if time.After now (ExpireDate session) then
        (sm, None, [GoDeleteSession sessionID])
      else
        let session' := touch session accessed in
        ({| sessions := <[sessionID := session']> (sessions sm) |},
         Some session', [])
  end.

Definition DeleteSession (sm : Manager) (sessionID : string) : Manager :=
  {| sessions := delete sessionID (sessions sm) |}.

(** [CleanupExpiredSessions], and one tick of the background
    [cleanupExpiredSessions]: every entry with [now.After(ExpireDate)]
    is deleted. *)
Definition CleanupExpiredSessions (sm : Manager) (now : time.Time) : Manager :=
  {| sessions :=
       filter (λ kv, time.After now (ExpireDate kv.2) = false) (sessions sm) |}.

Definition runGoroutine (sm : Manager) (g : Goroutine) : Manager :=
  match g with
  | GoDeleteSession sessionID => DeleteSession sm sessionID
  end.

(** The calls a client, a goroutine or the ticker can make on a
    manager, and their effect on it in the order they take the lock. *)
Inductive Call : Type :=
| CallCreate (uuid : string) (now : time.Time) (userID description : string)
    (expireDate : time.Time) (allowedDomains : list string)
| CallGet (sessionID : string) (now accessed : time.Time)
| CallDelete (sessionID : string)
| CallCleanup (now : time.Time).

Definition call (sm : Manager) (c : Call) : Manager :=
  match c with
  | CallCreate uuid now u d e ds => (CreateSession sm uuid now u d e ds).1
  | CallGet sessionID now accessed =>
      (GetSession sm sessionID now accessed).1.1
  | CallDelete sessionID => DeleteSession sm sessionID
  | CallCleanup now => CleanupExpiredSessions sm now
  end.

Definition calls (sm : Manager) (cs : list Call) : Manager :=
  foldl call sm cs.

(** The calls of other clients that leave the session [sessionID] in
    place up to its expiry: no [CreateSession] drawing the same
    identifier, no [DeleteSession] of it, no sweep later than
    [expiry]. *)
Definition keeps (sessionID : string) (expiry : time.Time) (c : Call) : Prop :=
  match c with
  | CallCreate uuid _ _ _ _ _ => uuid ≠ sessionID
  | CallGet _ _ _ => True
  | CallDelete i => i ≠ sessionID
  | CallCleanup now => (now ≤ expiry)%Z
  end.

(** The calls that do not create [sessionID] anew. *)
Definition noCreate (sessionID : string) (c : Call) : Prop :=
  match c with
  | CallCreate uuid _ _ _ _ _ => uuid ≠ sessionID
  | _ => True
  end.

(** What is stored under [sessionID] is a session of this user, these
    domains and this expiry. *)
Definition holds (sm : Manager) (sessionID userID : string)
    (allowedDomains : list string) (expiry : time.Time) : Prop :=
  ∃ s, sessions sm !! sessionID = Some s ∧ UserID s = userID ∧
       AllowedDomains s = allowedDomains ∧ ExpireDate s = expiry.

(** Nothing is stored under [sessionID], or a session of this expiry. *)
Definition goneOrExpiring (sm : Manager) (sessionID : string)
    (expiry : time.Time) : Prop :=
  ∀ s, sessions sm !! sessionID = Some s → ExpireDate s = expiry.

(** The identifier a call creates, if it is a [CreateSession]. *)
Definition createdID (c : Call) : option string :=
  match c with
  | CallCreate uuid _ _ _ _ _ => Some uuid
  | _ => None
  end.

(** The calls that remove nothing: [CreateSession] and [GetSession]. *)
Definition createOrGet (c : Call) : Prop :=
  match c with
  | CallCreate _ _ _ _ _ _ | CallGet _ _ _ => True
  | _ => False
  end.


End session.

(** ** github.com/golang-jwt/jwt/v5, as far as auth/jwt.go reaches it

    The library is a dependency, not part of the repository.  Its control
    flow ([ParseUnverified], [ParseWithClaims], [Validator.Validate],
    [SigningMethodHMAC]) is written out; base64url, [encoding/json] and the
    hash function are the operations of the class [Wire].

    The codec loses information in two places: [encoding/json] writes
    U+FFFD for every byte of a string that is not part of a well-formed
    UTF-8 sequence, and a [NumericDate] is read back through a
    [float64], which holds the whole seconds exactly up to 2^53 only.
    [utf8.ValidString] and [jwt.exactDate] name the values outside these
    two cases. *)

Module utf8.
Local Open Scope N_scope.

(** A continuation byte, [10xxxxxx]. *)
Definition continuation (a : Ascii.ascii) : bool :=
  (128 <=? Ascii.N_of_ascii a) && (Ascii.N_of_ascii a <=? 191).

(** [utf8.ValidString]: the bytes are a sequence of well-formed UTF-8
    encodings (the table [first] and [acceptRanges] of the package):
    no stray continuation byte, no truncated or overlong encoding, no
    surrogate, nothing above U+10FFFF. *)
Fixpoint ValidString (s : string) : bool :=
  match s with
  | EmptyString => true
  | String a0 s0 =>
      let b0 := Ascii.N_of_ascii a0 in
      if b0 <? 128 then ValidString s0
      else if (194 <=? b0) && (b0 <=? 223) then
        match s0 with
        | String a1 s1 => continuation a1 && ValidString s1
        | _ => false
        end
      else if (224 <=? b0) && (b0 <=? 239) then
        match s0 with
        | String a1 (String a2 s2) =>
            let b1 := Ascii.N_of_ascii a1 in
            ((if b0 =? 224 then 160 else 128) <=? b1) &&
            (b1 <=? (if b0 =? 237 then 159 else 191)) &&
            continuation a2 && ValidString s2
        | _ => false
        end
      else if (240 <=? b0) && (b0 <=? 244) then
        match s0 with
        | String a1 (String a2 (String a3 s3)) =>
            let b1 := Ascii.N_of_ascii a1 in
            ((if b0 =? 240 then 144 else 128) <=? b1) &&
            (b1 <=? (if b0 =? 244 then 143 else 191)) &&
            continuation a2 && continuation a3 && ValidString s3
        | _ => false
        end
      else false
  end.

End utf8.

Module jwt.

Inductive Hash : Type := SHA256 | SHA384 | SHA512.

(** The signing methods the library registers, by the Go type that
    implements them. *)
Inductive SigningMethod : Type :=
| SigningMethodHMAC (h : Hash)
| SigningMethodRSA (h : Hash)
| SigningMethodRSAPSS (h : Hash)
| SigningMethodECDSA (h : Hash)
| SigningMethodEd25519
| SigningMethodNone.

Definition SigningMethodHS256 : SigningMethod := SigningMethodHMAC SHA256.

Definition Alg (m : SigningMethod) : string :=
  match m with
  | SigningMethodHMAC SHA256 => "HS256"
  | SigningMethodHMAC SHA384 => "HS384"
  | SigningMethodHMAC SHA512 => "HS512"
  | SigningMethodRSA SHA256 => "RS256"
  | SigningMethodRSA SHA384 => "RS384"
  | SigningMethodRSA SHA512 => "RS512"
  | SigningMethodRSAPSS SHA256 => "PS256"
  | SigningMethodRSAPSS SHA384 => "PS384"
  | SigningMethodRSAPSS SHA512 => "PS512"
  | SigningMethodECDSA SHA256 => "ES256"
  | SigningMethodECDSA SHA384 => "ES384"
  | SigningMethodECDSA SHA512 => "ES512"
  | SigningMethodEd25519 => "EdDSA"
  | SigningMethodNone => "none"
  end.

(** The table [signingMethods] that the library's [init] functions fill
    through [RegisterSigningMethod], and its lookup. *)
Definition signingMethods : gmap string SigningMethod :=
  list_to_map
    ((λ m, (Alg m, m)) <$>
     [SigningMethodHMAC SHA256; SigningMethodHMAC SHA384; SigningMethodHMAC SHA512;
      SigningMethodRSA SHA256; SigningMethodRSA SHA384; SigningMethodRSA SHA512;
      SigningMethodRSAPSS SHA256; SigningMethodRSAPSS SHA384;
      SigningMethodRSAPSS SHA512;
      SigningMethodECDSA SHA256; SigningMethodECDSA SHA384;
      SigningMethodECDSA SHA512;
      SigningMethodEd25519; SigningMethodNone]).

Definition GetSigningMethod (alg : string) : option SigningMethod :=
  signingMethods !! alg.

Definition isHMAC (m : SigningMethod) : bool :=
  match m with SigningMethodHMAC _ => true | _ => false end.

(** [TimePrecision] and [NewNumericDate]: a numeric date holds an
    instant truncated to the precision, one second. *)
Definition TimePrecision : time.Duration := time.Second.

Definition NewNumericDate (t : time.Time) : time.Time :=
  time.Truncate t TimePrecision.

(** [RegisteredClaims]; a nil [*NumericDate] is [None]. *)
Record RegisteredClaims : Type := {
  Issuer : string;
  Subject : string;
  Audience : list string;
  ExpiresAt : option time.Time;
  NotBefore : option time.Time;
  IssuedAt : option time.Time;
  ID : string;
}.

(** The instants a [NumericDate] holds that the codec writes and reads
    back unchanged: whole multiples of [TimePrecision] whose count of
    seconds since the Unix epoch a [float64] holds exactly. *)
Definition exactSeconds (t : time.Time) : Prop :=
  (- 2 ^ 53 ≤ t / time.Second ≤ 2 ^ 53)%Z.

Definition exactDate (d : option time.Time) : Prop :=
  match d with
  | None => True
  | Some t => NewNumericDate t = t ∧ exactSeconds t
  end.

Definition validText (s : option string) : Prop :=
  match s with
  | None => True
  | Some s => utf8.ValidString s = true
  end.

(** The values of [RegisteredClaims] the codec writes without loss. *)
Definition encodableRegistered (c : RegisteredClaims) : Prop :=
  utf8.ValidString (Issuer c) = true ∧
  utf8.ValidString (Subject c) = true ∧
  Forall (λ a, utf8.ValidString a = true) (Audience c) ∧
  exactDate (ExpiresAt c) ∧
  exactDate (NotBefore c) ∧
  exactDate (IssuedAt c) ∧
  utf8.ValidString (ID c) = true.

(** The [Claims] interface, for the getters [Validate] calls. *)
Class Claims (C : Type) : Type := {
  GetExpirationTime : C → option time.Time;
  GetNotBefore : C → option time.Time;
  GetIssuedAt : C → option time.Time;
}.

(** The JOSE header: of the decoded map only the string under ["alg"]
    is read ([None] when it is absent or not a string). *)
Record Header : Type := {
  typ : option string;
  alg : option string;
}.

(** The value a [Keyfunc] returns or [SignedString] receives, an
    [interface{}]: a byte slice, or nil. *)
Inductive Key : Type :=
| KeyBytes (b : string)
| KeyNil.

(** The wire format.  [segments] is the text [header.claims] of a
    token, the string that is signed; [encodeSegments] is
    [Token.SigningString] (JSON, then base64url, of the header and of
    the claims), [decodeSegments] the decoding of the two segments in
    [ParseUnverified] ([None] when base64 or JSON decoding fails), and
    [hmac h key s] the MAC of [s] under [key] with hash [h]. *)
Class Wire (C : Type) : Type := {
  segments : Type;
  encodeSegments : Header → C → segments;
  decodeSegments : segments → option (Header * C);
  hmac : Hash → string → segments → string;
}.

(** A token string as [strings.Split(tokenString, ".")] and the base64
    decoding of the third part see it: not three parts, or the signing
    string and the signature bytes ([None] when the third part is not
    base64url). *)
Inductive TokenString {C : Type} `{Wire C} : Type :=
| BadSegmentCount
| Compact (signingString : segments) (signature : option string).

Inductive UnverifiableCause : Type :=
| AlgUnspecified       (* "signing method (alg) is unspecified" *)
| AlgUnavailable       (* "signing method (alg) is unavailable" *)
| KeyfuncFailed (err : string).  (* "error while executing keyfunc" *)

Inductive SignError : Type :=
| ErrInvalidKeyType
| ErrSignatureInvalid
| NoneSignatureTypeDisallowedError.

Inductive ClaimError : Type :=
| ErrTokenExpired
| ErrTokenNotValidYet.

Inductive Error : Type :=
| ErrTokenMalformed
| ErrTokenUnverifiable (cause : UnverifiableCause)
| ErrTokenSignatureInvalid (cause : SignError)
| ErrTokenInvalidClaims (causes : list ClaimError).

Section Library.
Context {C : Type} `{Claims C} `{Wire C}.

Record Token : Type := {
  Method : SigningMethod;
  TokenHeader : Header;
  TokenClaims : C;
  Valid : bool;
}.

Definition NewWithClaims (method : SigningMethod) (claims : C) : Token :=
  {| Method := method;
     TokenHeader := {| typ := Some "JWT"; alg := Some (Alg method) |};
     TokenClaims := claims;
     Valid := false |}.

(** [SigningMethod.Sign]: [SigningMethodHMAC] wants a byte slice; the
    other methods want a private key of their own type (or, for
    [none], the magic constant) and refuse a byte slice and nil. *)
Definition Sign (m : SigningMethod) (signingString : segments) (key : Key)
    : SignError + string :=
  match m, key with
  | SigningMethodHMAC h, KeyBytes keyBytes =>
      inr (hmac h keyBytes signingString)
  | SigningMethodNone, _ => inl NoneSignatureTypeDisallowedError
  | _, _ => inl ErrInvalidKeyType
  end.

(** [SigningMethod.Verify]; [None] is a nil error. *)
Definition Verify (m : SigningMethod) (signingString : segments)
    (sig : string) (key : Key) : option SignError :=
  match m, key with
  | SigningMethodHMAC h, KeyBytes keyBytes =>
      if decide (sig = hmac h keyBytes signingString) then None
      else Some ErrSignatureInvalid
  | SigningMethodNone, _ => Some NoneSignatureTypeDisallowedError
  | _, _ => Some ErrInvalidKeyType
  end.

Definition SignedString (t : Token) (key : Key) : SignError + TokenString :=
  let sstr := encodeSegments (TokenHeader t) (TokenClaims t) in
  match Sign (Method t) sstr key with
  | inl err => inl err
  | inr sig => inr (Compact sstr (Some sig))
  end.

(** [Parser.ParseUnverified]: the token, and the parts.  The third
    part is handed on as it is.  (Releases of v5 from 5.3.1 on decode
    it here and refuse a token whose third part is not base64url as
    malformed; for a third part that decodes, all releases return the
    same.) *)
Definition ParseUnverified (tokenString : TokenString)
    : Error + (Token * segments * option string) :=
  match tokenString with
  | BadSegmentCount => inl ErrTokenMalformed
  | Compact text sig =>
      match decodeSegments text with
      | None => inl ErrTokenMalformed
      | Some (header, claims) =>
          match alg header with
          | None => inl (ErrTokenUnverifiable AlgUnspecified)
          | Some method =>
              match GetSigningMethod method with
              | None => inl (ErrTokenUnverifiable AlgUnavailable)
              | Some m =>
                  inr ({| Method := m; TokenHeader := header;
                          TokenClaims := claims; Valid := false |},
                       text, sig)
              end
          end
      end
  end.

(** [Validator.Validate] with the default validator: no leeway,
    [exp] and [nbf] checked when present, [iat] not checked, no
    expected audience, issuer or subject.  It collects the errors. *)
Definition verifyExpiresAt (claims : C) (cmp : time.Time) : list ClaimError :=
  match GetExpirationTime claims with
  | None => []
  | Some exp => if time.Before cmp exp then [] else [ErrTokenExpired]
  end.

Definition verifyNotBefore (claims : C) (cmp : time.Time) : list ClaimError :=
  match GetNotBefore claims with
  | None => []
  | Some nbf =>
      if time.After cmp nbf || time.Equal cmp nbf then []
      else [ErrTokenNotValidYet]
  end.

Definition Validate (claims : C) (now : time.Time) : list ClaimError :=
  verifyExpiresAt claims now ++ verifyNotBefore claims now.

(** [ParseWithClaims] with a parser without options: parse, decode the
    signature part, ask the key function for the key, verify the
    signature, validate the claims.  (Releases of v5 differ in whether
    the signature part is decoded before or after the key function is
    called; with a token that fails both, that decides which of the two
    errors is returned, and nothing else.) *)
Definition ParseWithClaims (tokenString : TokenString)
    (keyFunc : Token → string + Key) (now : time.Time) : Error + Token :=
  match ParseUnverified tokenString with
  | inl err => inl err
  | inr (token, text, None) => inl ErrTokenMalformed
  | inr (token, text, Some sig) =>
      match keyFunc token with
      | inl err => inl (ErrTokenUnverifiable (KeyfuncFailed err))
      | inr key =>
          match Verify (Method token) text sig key with
          | Some err => inl (ErrTokenSignatureInvalid err)
          | None =>
              match Validate (TokenClaims token) now with
              | [] =>
                  inr {| Method := Method token;
                         TokenHeader := TokenHeader token;
                         TokenClaims := TokenClaims token;
                         Valid := true |}
              | errs => inl (ErrTokenInvalidClaims errs)
              end
          end
      end
  end.

(** What [encoding/json] and base64url guarantee: a header whose
    strings are valid UTF-8, and claims that are [encodable], decode to
    themselves.  [encodable] says of a claims type which of its values
    the codec writes without loss. *)
Definition encodableHeader (h : Header) : Prop :=
  validText (typ h) ∧ validText (alg h).

Class WireLaws (encodable : C → Prop) : Prop := {
  decode_encode : ∀ (h : Header) (c : C),
    encodableHeader h → encodable c →
    decodeSegments (encodeSegments h c) = Some (h, c);
}.

End Library.

Arguments Token C : clear implicits.
Arguments TokenString C {_}.
Arguments WireLaws C {_} encodable.

End jwt.


(** ** auth/jwt.go *)

Module auth.

(** [JWTClaims]: the three custom claims and the embedded
    [jwt.RegisteredClaims].  A nil and an empty [AllowedDomains] are both
    the empty list. *)
Record JWTClaims : Type := {
  UserID : string;
  Description : string;
  AllowedDomains : list string;
  Registered : jwt.RegisteredClaims;
}.

#[export] Instance JWTClaims_Claims : jwt.Claims JWTClaims := {|
  jwt.GetExpirationTime c := jwt.ExpiresAt (Registered c);
  jwt.GetNotBefore c := jwt.NotBefore (Registered c);
  jwt.GetIssuedAt c := jwt.IssuedAt (Registered c);
|}.

(** The claims the codec writes without loss: every string valid
    UTF-8, every date a whole second in the exact range. *)
Definition encodable (c : JWTClaims) : Prop :=
  utf8.ValidString (UserID c) = true ∧
  utf8.ValidString (Description c) = true ∧
  Forall (λ d, utf8.ValidString d = true) (AllowedDomains c) ∧
  jwt.encodableRegistered (Registered c).

(** The errors of jwt.go, by their format string. *)
Inductive Error : Type :=
| ErrFailedToParse (err : jwt.Error)     (* "failed to parse JWT: %w" *)
| ErrInvalidClaims                       (* "invalid JWT claims" *)
| ErrTokenIsExpired                      (* "JWT token is expired" *)
| ErrUserIDRequired                      (* "user_id is required in JWT" *)
| ErrDescriptionRequired                 (* "description is required in JWT" *)
| ErrFailedToValidate (err : jwt.Error)  (* "failed to validate JWT: %w" *)
| ErrInvalidToken                        (* "invalid JWT token" *)
| ErrFailedToSign (err : jwt.SignError). (* "failed to sign JWT: %w" *)

Section WithWire.
Context `{W : jwt.Wire JWTClaims}.

(** [parseJWTWithoutVerification]; the type assertion of [token.Claims]
    to a [JWTClaims] pointer cannot fail, the claims being those the
    function passed in. *)
Definition parseJWTWithoutVerification (tokenString : jwt.TokenString JWTClaims)
    (now : time.Time) : Error + JWTClaims :=
  match jwt.ParseUnverified tokenString with
  | inl err => inl (ErrFailedToParse err)
  | inr (token, _, _) =>
      let claims := jwt.TokenClaims token in
      if match jwt.ExpiresAt (Registered claims) with
         | Some exp => time.After now exp
         | None => false
         end
      then inl ErrTokenIsExpired
      else if decide (UserID claims = "") then inl ErrUserIDRequired
      else if decide (Description claims = "") then inl ErrDescriptionRequired
      else inr claims
  end.

(** The key function of [ValidateJWTWithSecret]. *)
Definition keyFunc (secret : string) (token : jwt.Token JWTClaims)
    : string + jwt.Key :=
  if jwt.isHMAC (jwt.Method token) then inr (jwt.KeyBytes secret)
  else inl ("unexpected signing method: "
            ++ default "<nil>" (jwt.alg (jwt.TokenHeader token))).

Definition ValidateJWTWithSecret (tokenString : jwt.TokenString JWTClaims)
    (secret : string) (now : time.Time) : Error + JWTClaims :=
  match jwt.ParseWithClaims tokenString (keyFunc secret) now with
  | inl err => inl (ErrFailedToValidate err)
  | inr token =>
      if negb (jwt.Valid token) then inl ErrInvalidToken
      else inr (jwt.TokenClaims token)
  end.

Definition ParseJWT (tokenString : jwt.TokenString JWTClaims)
    (secret : string) (now : time.Time) : Error + JWTClaims :=
  if decide (secret ≠ "") then ValidateJWTWithSecret tokenString secret now
  else parseJWTWithoutVerification tokenString now.

(** [CreateJWT]; [now] is the [time.Now()] it reads for [issuedAt]. *)
Definition CreateJWT (now : time.Time) (userID description : string)
    (expiresAt : time.Time) (allowedDomains : list string) (secret : string)
    : Error + jwt.TokenString JWTClaims :=
  let issuedAt := now in
  let claims :=
    {| UserID := userID;
       Description := description;
       AllowedDomains := allowedDomains;
       Registered :=
         {| jwt.ExpiresAt := Some (jwt.NewNumericDate expiresAt);
            jwt.IssuedAt := Some (jwt.NewNumericDate issuedAt);
            jwt.NotBefore := Some (jwt.NewNumericDate issuedAt);
            jwt.Issuer := "go-cert-provider";
            jwt.Subject := userID;
            jwt.Audience := [];
            jwt.ID := "" |} |} in
  let token := jwt.NewWithClaims jwt.SigningMethodHS256 claims in
  match jwt.SignedString token (jwt.KeyBytes secret) with
  | inl err => inl (ErrFailedToSign err)
  | inr tokenString => inr tokenString
  end.

End WithWire.

(** An error that reports an expired token: the one
    [parseJWTWithoutVerification] builds, or a validation error of the
    library among whose causes is [jwt.ErrTokenExpired]. *)
Definition isExpiredError (e : Error) : bool :=
  match e with
  | ErrTokenIsExpired => true
  | ErrFailedToValidate (jwt.ErrTokenInvalidClaims causes)
  | ErrFailedToParse (jwt.ErrTokenInvalidClaims causes) =>
      existsb (λ c, match c with jwt.ErrTokenExpired => true | _ => false end)
        causes
  | _ => false
  end.

(** An error that reports a missing required claim. *)
Definition isMissingClaimError (e : Error) : bool :=
  match e with
  | ErrUserIDRequired | ErrDescriptionRequired => true
  | _ => false
  end.

(** A wire format to run the functions on: the signing string is the
    header and the claims themselves, and the MAC of a string is the key
    next to the hash's name.  It satisfies [jwt.WireLaws encodable]. *)
Definition plainWire : jwt.Wire JWTClaims := {|
  jwt.segments := jwt.Header * JWTClaims;
  jwt.encodeSegments h c := (h, c);
  jwt.decodeSegments s := Some s;
  jwt.hmac h key _ :=
    match h with
    | jwt.SHA256 => "256:" | jwt.SHA384 => "384:" | jwt.SHA512 => "512:"
    end ++ key;
|}.

End auth.


(** ** Go's [strings] package, as far as the sources use it

    A Go string is its bytes, a Rocq [string]. *)

Module strings.

(** [strings.Split(s, ",")]: the parts between the commas, one more
    than there are commas. *)
Fixpoint SplitComma (s : string) : list string :=
  match s with
  | EmptyString => [""]
  | String c rest =>
      if Ascii.eqb c (Ascii.ascii_of_nat 44) (* ',' *) then "" :: SplitComma rest
      else match SplitComma rest with
           | [] => [String c ""]
           | part :: parts => String c part :: parts
           end
  end.

(** The white space of [unicode.IsSpace], by its UTF-8 encoding: the
    six ASCII characters, U+0085 and U+00A0, U+1680, U+2000 to U+200A,
    U+2028, U+2029, U+202F, U+205F and U+3000 ([space2] the two of two
    bytes, [space3] those of three).  [spaceWidth bs] is the number of
    bytes of the space that [bs] begins with, 0 when it begins with
    none. *)
Definition asciiSpace (b : N) : bool :=
  (N.leb 9 b && N.leb b 13 || N.eqb b 32)%N.

Definition space2 (b0 b1 : N) : bool :=
  (N.eqb b0 194 && (N.eqb b1 133 || N.eqb b1 160))%N.

Definition space3 (b0 b1 b2 : N) : bool :=
  (N.eqb b0 225 && N.eqb b1 154 && N.eqb b2 128
   || N.eqb b0 226 && N.eqb b1 128
      && (N.leb 128 b2 && N.leb b2 138 || N.eqb b2 168 || N.eqb b2 169
          || N.eqb b2 175)
   || N.eqb b0 226 && N.eqb b1 129 && N.eqb b2 159
   || N.eqb b0 227 && N.eqb b1 128 && N.eqb b2 128)%N.

Definition spaceWidth (bs : list N) : nat :=
  match bs with
  | [] => 0
  | b0 :: rest =>
      if asciiSpace b0 then 1 else
      match rest with
      | [] => 0
      | b1 :: rest' =>
          if space2 b0 b1 then 2 else
          match rest' with
          | [] => 0
          | b2 :: _ => if space3 b0 b1 b2 then 3 else 0
          end
      end
  end.

(** The same read backwards from the end of a string: [sb] is the
    bytes in reverse order. *)
Definition spaceWidthRev (sb : list N) : nat :=
  match sb with
  | [] => 0
  | b0 :: rest =>
      if asciiSpace b0 then 1 else
      match rest with
      | [] => 0
      | b1 :: rest' =>
          if space2 b1 b0 then 2 else
          match rest' with
          | [] => 0
          | b2 :: _ => if space3 b2 b1 b0 then 3 else 0
          end
      end
  end.

(** Dropping the spaces a byte list begins with; [fuel] bounds the
    number of spaces. *)
Fixpoint dropSpaces (width : list N → nat) (fuel : nat) (bs : list N)
    : list N :=
  match fuel with
  | O => bs
  | S fuel' =>
      match width bs with
      | O => bs
      | w => dropSpaces width fuel' (drop w bs)
      end
  end.

Definition bytes (s : string) : list N :=
  Ascii.N_of_ascii <$> String.list_ascii_of_string s.

Definition ofBytes (bs : list N) : string :=
  String.string_of_list_ascii (Ascii.ascii_of_N <$> bs).

(** [strings.TrimSpace]: the string without the white space it begins
    and ends with. *)
Definition TrimSpace (s : string) : string :=
  let left := dropSpaces spaceWidth (String.length s) (bytes s) in
  ofBytes (rev (dropSpaces spaceWidthRev (length left) (rev left))).

End strings.

(** ** [domain.Info] *)

Module domainInfo.

Record Info : Type := {
  Name : string;
  Status : string;
  Provider : string;
  CreateDate : time.Time;
  ExpireDate : time.Time;
  AutoRenew : bool;
}.

End domainInfo.

(** ** cert/providers/porkbun: the provider and its bootstrap *)

Module porkbun.

(** The errors of the package, by their format string. *)
Inductive Error : Type :=
| ErrMissingFields (missingFields : list string)
    (* "missing required Porkbun fields: %s" *)
| ErrAPIKeyNotConfigured     (* "Porkbun API key not configured (...)" *)
| ErrSecretKeyNotConfigured  (* "Porkbun secret key not configured (...)" *)
| ErrNoValidDomains          (* "no valid domains specified for Porkbun" *)
| ErrConnect (err : string)  (* "failed to connect to Porkbun API: %w" *)
| ErrRetrieveDomains (err : string)
    (* "failed to retrieve domains from Porkbun: %w" *)
| ErrNoDomainsFound          (* "no domains found in Porkbun account" *)
| ErrNoActiveDomains         (* "no active domains found in Porkbun account" *)
| ErrValidationFailed (err : Error)
    (* "Porkbun provider validation failed: %w" *)
| ErrNotManaged (domainName : string)
    (* "domain %s is not managed by this provider" *)
| ErrRetrieveSSL (err : string).
    (* "failed to retrieve SSL certificate: %w" *)

(** [Provider]; its [client] holds the two keys again and is left
    out. *)
Record Provider : Type := {
  apiKey : string;
  secretKey : string;
  domains : list string;
  domainInfos : gmap string domainInfo.Info;
}.

Definition NewProvider (apiKey secretKey : string) (domains : list string)
    : Provider :=
  {| apiKey := apiKey; secretKey := secretKey; domains := domains;
     domainInfos := ∅ |}.

(** [SetDomainInfos]: a fresh map, filled in the order of the slice. *)
Definition SetDomainInfos (p : Provider) (infos : list domainInfo.Info)
    : Provider :=
  {| apiKey := apiKey p; secretKey := secretKey p; domains := domains p;
     domainInfos :=
       foldl (λ m info, <[domainInfo.Name info := info]> m) ∅ infos |}.

Definition GetProviderName (p : Provider) : string := "porkbun".

Definition GetDomains (p : Provider) : list string := domains p.

(** [GetDomainInfo]; [None] is nil. *)
Definition GetDomainInfo (p : Provider) (domainName : string)
    : option domainInfo.Info :=
  match domainInfos p !! domainName with
  | Some info => Some info
  | None =>
      if decide (domainName ∈ domains p) then
        Some {| domainInfo.Name := domainName;
                domainInfo.Provider := GetProviderName p;
                domainInfo.Status := "UNKNOWN";
                domainInfo.CreateDate := time.zero;
                domainInfo.ExpireDate := time.zero;
                domainInfo.AutoRenew := false |}
      else None
  end.

Definition ListDomainInfo (p : Provider) : list domainInfo.Info :=
  omap (GetDomainInfo p) (domains p).

(** [RetrieveCertificate]; [retrieveSSL] is the answer of
    [p.client.RetrieveSSL], the chain and the key or an error. *)
Definition RetrieveCertificate (p : Provider)
    (retrieveSSL : string → string + string * string) (domainName : string)
    : Error + string * string :=
  if decide (domainName ∈ domains p) then
    match retrieveSSL domainName with
    | inl err => inl (ErrRetrieveSSL err)
    | inr (certChain, privateKey) => inr (certChain, privateKey)
    end
  else inl (ErrNotManaged domainName).

Definition ValidateConfiguration (p : Provider) : option Error :=
  let missingFields : list string := [] in
  let missingFields :=
    if decide (apiKey p = "") then (missingFields ++ ["api-key"])%list
    else missingFields in
  let missingFields :=
    if decide (secretKey p = "") then (missingFields ++ ["secret-key"])%list
    else missingFields in
  if decide (0 < length missingFields) then Some (ErrMissingFields missingFields)
  else None.

(** [err.Error()]. *)
Fixpoint errorText (e : Error) : string :=
  match e with
  | ErrMissingFields fields =>
      "missing required Porkbun fields: " ++ String.concat ", " fields
  | ErrAPIKeyNotConfigured =>
      "Porkbun API key not configured (set PORKBUN_API_KEY env var or --porkbun-api-key flag)"
  | ErrSecretKeyNotConfigured =>
      "Porkbun secret key not configured (set PORKBUN_SECRET_KEY env var or --porkbun-secret-key flag)"
  | ErrNoValidDomains => "no valid domains specified for Porkbun"
  | ErrConnect err => "failed to connect to Porkbun API: " ++ err
  | ErrRetrieveDomains err =>
      "failed to retrieve domains from Porkbun: " ++ err
  | ErrNoDomainsFound => "no domains found in Porkbun account"
  | ErrNoActiveDomains => "no active domains found in Porkbun account"
  | ErrValidationFailed err =>
      "Porkbun provider validation failed: " ++ errorText err
  | ErrNotManaged domainName =>
      "domain " ++ domainName ++ " is not managed by this provider"
  | ErrRetrieveSSL err => "failed to retrieve SSL certificate: " ++ err
  end.

(** A provider behind the interface [domain.CertificateProvider]. *)
Definition asCertificateProvider (p : Provider) : domain.CertificateProvider :=
  {| domain.GetProviderName := GetProviderName p;
     domain.GetDomains := GetDomains p;
     domain.ValidateConfiguration := errorText <$> ValidateConfiguration p |}.

(** [Bootstrap]: the values of the three flags (the fields [apiKey],
    [secretKey] and [domains] of the source). *)
Record Bootstrap : Type := {
  flagAPIKey : string;
  flagSecretKey : string;
  flagDomains : string;
}.

Definition NewBootstrap : Bootstrap :=
  {| flagAPIKey := ""; flagSecretKey := ""; flagDomains := "" |}.

Definition envAPIKey : string := "PORKBUN_API_KEY".
Definition envSecretKey : string := "PORKBUN_SECRET_KEY".
Definition envDomains : string := "PORKBUN_DOMAINS".

(** An entry of the account's domain list ([Domain] of client.go). *)
Record Domain : Type := {
  DomainName : string;     (* Domain *)
  DomainStatus : string;   (* Status *)
  TLD : string;
  DomainCreateDate : string;
  DomainExpireDate : string;
}.

(** What the Porkbun API answers: the error of [client.Ping] ([None]
    for nil) and the result of [client.ListDomains]. *)
Record Upstream : Type := {
  Ping : option string;
  ListDomains : string + list Domain;
}.

Definition parseDomains (domainsStr : string) : list string :=
  filter (λ d, d ≠ "") (strings.TrimSpace <$> strings.SplitComma domainsStr).

Section Environment.
(** [os.Getenv], and [time.Parse] with the layout of [parseDate]
    ([None] for an error). *)
Variable getenv : string → string.
Variable parseTime : string → option time.Time.

Definition getAPIKey (b : Bootstrap) : string :=
  if decide (flagAPIKey b ≠ "") then flagAPIKey b else getenv envAPIKey.

Definition getSecretKey (b : Bootstrap) : string :=
  if decide (flagSecretKey b ≠ "") then flagSecretKey b
  else getenv envSecretKey.

Definition getDomains (b : Bootstrap) : string :=
  if decide (flagDomains b ≠ "") then flagDomains b else getenv envDomains.

Definition IsConfigured (b : Bootstrap) : bool :=
  bool_decide (getAPIKey b ≠ "") && bool_decide (getSecretKey b ≠ "").

Definition parseDate (dateStr : string) : time.Time :=
  if decide (dateStr = "") then time.zero
  else match parseTime dateStr with
       | Some t => t
       | None => time.zero
       end.

(** [CreateProvider]; [upstream] is only consulted when no domain list
    is configured. *)
Definition CreateProvider (upstream : Upstream) (b : Bootstrap)
    : Error + Provider :=
  let apiKey := getAPIKey b in
  let secretKey := getSecretKey b in
  let domainsStr := getDomains b in
  if decide (apiKey = "") then inl ErrAPIKeyNotConfigured
  else if decide (secretKey = "") then inl ErrSecretKeyNotConfigured
  else
    let discovered : Error + list string * list domainInfo.Info :=
      if decide (domainsStr ≠ "") then
        let domains := parseDomains domainsStr in
        if decide (length domains = 0) then inl ErrNoValidDomains
        else
          inr (domains,
               (λ d, {| domainInfo.Name := d;
                        domainInfo.Provider := "porkbun";
                        domainInfo.Status := "CONFIGURED";
                        domainInfo.CreateDate := time.zero;
                        domainInfo.ExpireDate := time.zero;
                        domainInfo.AutoRenew := false |}) <$> domains)
      else
        match Ping upstream with
        | Some err => inl (ErrConnect err)
        | None =>
            match ListDomains upstream with
            | inl err => inl (ErrRetrieveDomains err)
            | inr porkbunDomains =>
                if decide (length porkbunDomains = 0) then inl ErrNoDomainsFound
                else
                  let active :=
                    filter (λ d, DomainStatus d = "ACTIVE") porkbunDomains in
                  let domains := DomainName <$> active in
                  let domainInfos :=
                    (λ d, {| domainInfo.Name := DomainName d;
                             domainInfo.Provider := "porkbun";
                             domainInfo.Status := DomainStatus d;
                             domainInfo.CreateDate :=
                               parseDate (DomainCreateDate d);
                             domainInfo.ExpireDate :=
                               parseDate (DomainExpireDate d);
                             domainInfo.AutoRenew := false |}) <$> active in
                  if decide (length domains = 0) then inl ErrNoActiveDomains
                  else inr (domains, domainInfos)
            end
        end in
  match discovered with
  | inl err => inl err
  | inr (domains, domainInfos) =>
      let provider :=
        SetDomainInfos (NewProvider apiKey secretKey domains) domainInfos in
      match ValidateConfiguration provider with
      | Some err => inl (ErrValidationFailed err)
      | None => inr provider
      end
  end.

(** The bootstrap behind the interface [domain.ProviderBootstrap]. *)
Definition asProviderBootstrap (upstream : Upstream) (b : Bootstrap)
    : domain.ProviderBootstrap :=
  {| domain.BootstrapName := "porkbun";
     domain.IsConfigured := IsConfigured b;
     domain.CreateProvider :=
       match CreateProvider upstream b with
       | inl err => inl (errorText err)
       | inr p => inr (asCertificateProvider p)
       end |}.

End Environment.

End porkbun.

(** ** cert/init.go *)

Module cert.

Section Environment.
Variable getenv : string → string.
Variable parseTime : string → option time.Time.

(** [InitializeCertificateSystem]: a new registry, a bootstrap manager
    for it, and the Porkbun bootstrap registered with the manager.  The
    package keeps the two in variables and hands the same two out on
    every later call; the registry it returns is the one the manager
    holds.  [flags] are the values of the Porkbun flags and [upstream]
    the answers of the Porkbun API at the time the bootstrap is asked,
    which is when [InitializeProviders] runs. *)
Definition InitializeCertificateSystem (upstream : porkbun.Upstream)
    (flags : porkbun.Bootstrap) : registry.BootstrapManager :=
  let globalProviderRegistry := registry.NewCertificateProviderRegistry in
  let globalBootstrapManager :=
    registry.NewBootstrapManager globalProviderRegistry in
  registry.RegisterBootstrap globalBootstrapManager
    (porkbun.asProviderBootstrap getenv parseTime upstream flags).

End Environment.

End cert.

(** ** Values the examples run on *)

Module examples.
Import domain.

Definition providerA : CertificateProvider :=
  {| GetProviderName := "porkbun";
     GetDomains := ["a.com"];
     ValidateConfiguration := None |}.

Definition providerB : CertificateProvider :=
  {| GetProviderName := "cloudflare";
     GetDomains := ["b.com"];
     ValidateConfiguration := None |}.

(** A second provider type that claims [b.com] and then [a.com]. *)
Definition providerBA : CertificateProvider :=
  {| GetProviderName := "cloudflare";
     GetDomains := ["b.com"; "a.com"];
     ValidateConfiguration := None |}.

(** The registry after [providerA] alone was registered. *)
Definition registryA : registry.CertificateProviderRegistry :=
  (registry.Register registry.NewCertificateProviderRegistry providerA).1.

Definition bootstrapA : ProviderBootstrap :=
  {| BootstrapName := "porkbun";
     IsConfigured := true;
     CreateProvider := inr providerA |}.

(** A configured bootstrap whose discovery fails. *)
Definition bootstrapFailing : ProviderBootstrap :=
  {| BootstrapName := "cloudflare";
     IsConfigured := true;
     CreateProvider := inl "invalid credentials" |}.

Definition managerAThenFailing : registry.BootstrapManager :=
  registry.RegisterBootstrap
    (registry.RegisterBootstrap
       (registry.NewBootstrapManager registry.NewCertificateProviderRegistry)
       bootstrapA)
    bootstrapFailing.

(** Tokens on [auth.plainWire]. *)

Definition hs256Header : jwt.Header :=
  {| jwt.typ := Some "JWT"; jwt.alg := Some "HS256" |}.

Definition noneHeader : jwt.Header :=
  {| jwt.typ := Some "JWT"; jwt.alg := Some "none" |}.

Definition rs256Header : jwt.Header :=
  {| jwt.typ := Some "JWT"; jwt.alg := Some "RS256" |}.

(** Claims without [exp], [nbf] and [iat]. *)
Definition claimsWithoutExp : auth.JWTClaims :=
  {| auth.UserID := "alice";
     auth.Description := "deploy bot";
     auth.AllowedDomains := ["example.com"];
     auth.Registered :=
       {| jwt.Issuer := "go-cert-provider";
          jwt.Subject := "alice";
          jwt.Audience := [];
          jwt.ExpiresAt := None;
          jwt.NotBefore := None;
          jwt.IssuedAt := None;
          jwt.ID := "" |} |}.

(** [claimsWithoutExp] signed with [HS256] under ["secret"]. *)
Definition tokenWithoutExp : @jwt.TokenString auth.JWTClaims auth.plainWire :=
  @jwt.Compact auth.JWTClaims auth.plainWire (hs256Header, claimsWithoutExp)
    (Some (@jwt.hmac _ auth.plainWire jwt.SHA256 "secret"
             (hs256Header, claimsWithoutExp))).

(** An unsigned token: [alg] is [none], the signature part is empty. *)
Definition tokenAlgNone : @jwt.TokenString auth.JWTClaims auth.plainWire :=
  @jwt.Compact auth.JWTClaims auth.plainWire (noneHeader, claimsWithoutExp)
    (Some "").

(** A token that names [RS256] and carries, as its signature, the
    [HS256] MAC of its signing string under ["secret"]. *)
Definition tokenAlgRS256 : @jwt.TokenString auth.JWTClaims auth.plainWire :=
  @jwt.Compact auth.JWTClaims auth.plainWire (rs256Header, claimsWithoutExp)
    (Some (@jwt.hmac _ auth.plainWire jwt.SHA256 "secret"
             (rs256Header, claimsWithoutExp))).

(** Instants, in nanoseconds: 2027-01-15 08:00:00.2 UTC, half a second
    later, an hour later, and 3650 days later. *)
Definition t0 : time.Time := 1800000000200000000%Z.
Definition tHalfSecond : time.Time := 1800000000700000000%Z.
Definition tHour : time.Time := 1800003600200000000%Z.
Definition tTenYears : time.Time := 2115360000200000000%Z.


Definition bootstrapB : ProviderBootstrap :=
  {| BootstrapName := "cloudflare";
     IsConfigured := true;
     CreateProvider := inr providerB |}.

(** A bootstrap without credentials. *)
Definition bootstrapUnconfigured : ProviderBootstrap :=
  {| BootstrapName := "route53";
     IsConfigured := false;
     CreateProvider := inl "credentials not configured" |}.


(** The provider a Porkbun bootstrap creates from the domain list
    ["a.com, a.com"]. *)
Definition providerTwice : CertificateProvider :=
  porkbun.asCertificateProvider
    (porkbun.NewProvider "pk1_key" "sk1_secret"
       (porkbun.parseDomains "a.com, a.com")).


(** A Porkbun bootstrap with its three flags set, an empty environment,
    an account that cannot be reached, and the provider the bootstrap
    creates. *)
Definition porkbunBootstrap : porkbun.Bootstrap :=
  {| porkbun.flagAPIKey := "pk1_key";
     porkbun.flagSecretKey := "sk1_secret";
     porkbun.flagDomains := "example.com, test.com ,api.example.com," |}.

(** Flags that name one domain twice. *)
Definition porkbunBootstrapTwice : porkbun.Bootstrap :=
  {| porkbun.flagAPIKey := "pk1_key";
     porkbun.flagSecretKey := "sk1_secret";
     porkbun.flagDomains := "example.com,test.com, example.com" |}.

Definition noEnvironment : string → string := λ _, "".

Definition upstreamDown : porkbun.Upstream :=
  {| porkbun.Ping := Some "connection refused";
     porkbun.ListDomains := inl "connection refused" |}.

Definition porkbunProvider : porkbun.Provider :=
  match porkbun.CreateProvider noEnvironment (λ _, None) upstreamDown
          porkbunBootstrap with
  | inr p => p
  | inl _ => porkbun.NewProvider "" "" []
  end.


(** A manager with two sessions, created at 08:00:00 with expiries ten
    minutes and one hour later. *)
Definition managerTwoSessions : session.Manager :=
  session.calls session.NewManager
    [session.CallCreate "6ba7b810-9dad-41d1-80b4-00c04fd430c8"
       1800000000000000000%Z "alice" "deploy bot" 1800000600000000000%Z
       ["example.com"];
     session.CallCreate "6ba7b811-9dad-41d1-80b4-00c04fd430c8"
       1800000000000000000%Z "bob" "renewal job" 1800003600000000000%Z
       ["test.com"]].


End examples.


(** * The registry *)

Module registry_theory.
Import domain registry.

(** The domain loop only ever adds keys: an entry that is there stays. *)
Lemma claimDomains_keeps provider domains dm d q :
  dm !! d = Some q →
  (claimDomains provider domains dm).1 !! d = Some q.
Proof.
  revert dm. induction domains as [|a rest IH]; intros dm Hd; simpl; [done|].
  destruct (dm !! a) as [existing|] eqn:Ha; simpl; [done|].
  apply IH. rewrite lookup_insert_ne; [done|]. congruence.
Qed.

(** When the loop runs to its end, the domain map is the old one with
    every domain of the list pointing to the provider. *)
Lemma claimDomains_ok provider domains dm dm' :
  claimDomains provider domains dm = (dm', None) →
  ∀ d, dm' !! d = if decide (d ∈ domains) then Some provider else dm !! d.
Proof.
  revert dm. induction domains as [|a rest IH]; intros dm Hrun d; simpl in Hrun.
  - injection Hrun as <-. by rewrite decide_False by apply not_elem_of_nil.
  - destruct (dm !! a) as [existing|] eqn:Ha; [done|].
    rewrite (IH _ Hrun d).
    destruct (decide (d ∈ rest)) as [Hin|Hnin].
    + by rewrite decide_True by (by apply elem_of_cons; right).
    + destruct (decide (d = a)) as [->|Hne].
      * rewrite lookup_insert_eq. by rewrite decide_True by (by apply elem_of_cons; left).
      * rewrite lookup_insert_ne by done.
        by rewrite decide_False by (by intros [?|?]%elem_of_cons).
Qed.

(** The loop returns an error as soon as one domain of the list is
    already a key, and the error names a domain of the list. *)
Lemma claimDomains_conflict provider domains dm d :
  d ∈ domains → is_Some (dm !! d) →
  ∃ d' q, (claimDomains provider domains dm).2
            = Some (ErrDomainAlreadyManaged d' q) ∧ d' ∈ domains.
Proof.
  revert dm. induction domains as [|a rest IH]; intros dm Hin Hsome.
  - by apply elem_of_nil in Hin.
  - simpl. destruct (dm !! a) as [existing|] eqn:Ha; simpl.
    + exists a, (GetProviderName existing).
      split; [done|by apply elem_of_cons; left].
    + apply elem_of_cons in Hin as [->|Hin].
      * rewrite Ha in Hsome. by destruct Hsome.
      * destruct (IH (<[a:=provider]> dm) Hin) as (d' & q & Hres & Hd').
        { destruct (decide (a = d)) as [->|Hne].
          - rewrite lookup_insert_eq. eauto.
          - by rewrite lookup_insert_ne. }
        exists d', q. split; [done|by apply elem_of_cons; right].
Qed.

(** What a successful [Register] does to the two maps. *)
Lemma Register_ok r provider r' :
  Register r provider = (r', None) →
  providers r' = <[GetProviderName provider := provider]> (providers r) ∧
  ∀ d, domainMap r' !! d =
       if decide (d ∈ GetDomains provider) then Some provider
       else domainMap r !! d.
Proof.
  unfold Register.
  destruct (providers r !! GetProviderName provider); [done|].
  destruct (ValidateConfiguration provider); [done|].
  destruct (claimDomains _ _ _) as [dm res] eqn:Hloop.
  intros [= <- ->]. split; [done|]. simpl.
  by apply claimDomains_ok.
Qed.

(** A provider with a new name and a valid configuration that claims a
    domain that is already a key is refused with the domain error, and
    is in the provider map all the same when [Register] returns. *)
Lemma Register_duplicate_domain r provider d :
  providers r !! GetProviderName provider = None →
  ValidateConfiguration provider = None →
  d ∈ GetDomains provider → is_Some (domainMap r !! d) →
  ∃ d' q, (Register r provider).2 = Some (ErrDomainAlreadyManaged d' q) ∧
          d' ∈ GetDomains provider ∧
          providers (Register r provider).1 !! GetProviderName provider
            = Some provider.
Proof.
  intros Hnew Hvalid Hin Hsome. unfold Register. rewrite Hnew, Hvalid.
  destruct (claimDomains_conflict provider _ _ _ Hin Hsome)
    as (d' & q & Hres & Hd').
  destruct (claimDomains _ _ _) as [dm res]. simpl in *. subst res.
  exists d', q. split_and!; [done|done|]. by rewrite lookup_insert_eq.
Qed.

(** An invalid configuration is reported before any domain is looked
    at, and nothing is written. *)
Lemma Register_invalid_configuration r provider err :
  providers r !! GetProviderName provider = None →
  ValidateConfiguration provider = Some err →
  Register r provider
    = (r, Some (ErrConfigurationInvalid (GetProviderName provider) err)).
Proof. intros Hnew Hinv. unfold Register. by rewrite Hnew, Hinv. Qed.

Lemma length_ListDomains r : length (ListDomains r) = size (domainMap r).
Proof. unfold ListDomains. by rewrite length_fmap, length_map_to_list. Qed.

(** C1 (the code at the failing input).  With [a.com] held by
    ["porkbun"], registering ["cloudflare"] for [b.com] and [a.com]
    returns the duplicate-domain error for [a.com], and yet the registry
    has changed: ["cloudflare"] is in the provider map, [b.com] points to
    it, and the domain count went from 1 to 2. *)
Theorem Register_duplicate_domain_leaves_partial_state :
  let r := examples.registryA in
  let r' := (Register r examples.providerBA).1 in
  providers r !! "cloudflare" = None ∧
  GetProviderForDomain r "a.com" = inr examples.providerA ∧
  (Register r examples.providerBA).2
    = Some (ErrDomainAlreadyManaged "a.com" "porkbun") ∧
  GetProvider r' "cloudflare" = inr examples.providerBA ∧
  GetProviderForDomain r' "b.com" = inr examples.providerBA ∧
  length (ListDomains r) = 1 ∧
  length (ListDomains r') = 2.
Proof. by vm_compute. Qed.

(** C6.  [GetProviderForDomain] returns the provider stored under the
    exact domain string and the unknown-domain error when the string is
    not a key; after two providers claiming [a.com] and [b.com] were
    registered, [a.com] resolves to the first and [c.com] to the error. *)
Theorem GetProviderForDomain_exact_match :
  (∀ r d p, domainMap r !! d = Some p → GetProviderForDomain r d = inr p) ∧
  (∀ r d, domainMap r !! d = None →
          GetProviderForDomain r d = inl (ErrNoProviderForDomain d)) ∧
  (∀ pa pb,
     GetProviderName pa ≠ GetProviderName pb →
     ValidateConfiguration pa = None → ValidateConfiguration pb = None →
     GetDomains pa = ["a.com"] → GetDomains pb = ["b.com"] →
     let ra := Register NewCertificateProviderRegistry pa in
     let rb := Register ra.1 pb in
     ra.2 = None ∧ rb.2 = None ∧
     GetProviderForDomain rb.1 "a.com" = inr pa ∧
     GetProviderForDomain rb.1 "b.com" = inr pb ∧
     GetProviderForDomain rb.1 "c.com" = inl (ErrNoProviderForDomain "c.com")).
Proof.
  split_and!.
  - intros r d p Hd. unfold GetProviderForDomain. by rewrite Hd.
  - intros r d Hd. unfold GetProviderForDomain. by rewrite Hd.
  - intros pa pb Hne Hva Hvb Hda Hdb ra rb.
    assert (Hra : ra = ({| providers := {[GetProviderName pa := pa]};
                           domainMap := {[ "a.com" := pa ]} |}, None)).
    { subst ra. unfold Register. simpl. rewrite lookup_empty, Hva, Hda. simpl.
      by rewrite lookup_empty. }
    assert (Hrb : rb.2 = None ∧
                  domainMap rb.1 = <["b.com" := pb]> {[ "a.com" := pa ]}).
    { subst rb. rewrite Hra. unfold Register. simpl.
      rewrite lookup_singleton_ne by done. rewrite Hvb, Hdb. simpl.
      by rewrite lookup_singleton_ne. }
    destruct Hrb as [Hrb Hdm]. rewrite Hra. split_and!; [done|done|..];
      unfold GetProviderForDomain; rewrite Hdm.
    + rewrite lookup_insert_ne by done. by rewrite lookup_singleton_eq.
    + by rewrite lookup_insert_eq.
    + rewrite lookup_insert_ne by done. by rewrite lookup_singleton_ne.
Qed.

Lemma GetProviderForDomain_exact_match_witness :
  GetProviderForDomain examples.registryA "a.com" = inr examples.providerA ∧
  GetProviderForDomain examples.registryA "*.a.com"
    = inl (ErrNoProviderForDomain "*.a.com") ∧
  GetProviderForDomain
    (Register examples.registryA examples.providerB).1 "c.com"
    = inl (ErrNoProviderForDomain "c.com").
Proof.
  destruct GetProviderForDomain_exact_match as (Hsome & Hnone & Hscenario).
  split_and!.
  - apply Hsome. by vm_compute.
  - apply Hnone. by vm_compute.
  - apply (Hscenario examples.providerA examples.providerB); by vm_compute.
Defined.

(** The loop of [InitializeProviders] stops with an error at a
    configured bootstrap whose [CreateProvider] fails, unless it has
    stopped before. *)
Lemma initializeLoop_create_error bs r n b :
  b ∈ bs → IsConfigured b = true → (∃ e, CreateProvider b = inl e) →
  ∃ name, (∃ e, (initializeLoop bs r n).2 = inl (ErrCreateProvider name e)) ∨
          (∃ e, (initializeLoop bs r n).2 = inl (ErrRegisterProvider name e)).
Proof.
  intros Hin Hconf [e He]. revert r n.
  induction bs as [|b0 rest IH]; intros r n; [by apply elem_of_nil in Hin|].
  simpl. destruct (IsConfigured b0) eqn:Hc0; simpl.
  - destruct (CreateProvider b0) as [e0|provider] eqn:Hcreate; simpl.
    + exists (BootstrapName b0). left. by exists e0.
    + destruct (Register r provider) as [r' [err|]] eqn:Hreg; simpl.
      * exists (BootstrapName b0). right. by exists err.
      * apply IH. apply elem_of_cons in Hin as [->|Hin]; [congruence|done].
  - apply IH. apply elem_of_cons in Hin as [->|Hin]; [congruence|done].
Qed.

(** A bootstrap that is not configured is skipped: the loop runs as if
    it had not been registered. *)
Lemma initializeLoop_skips_unconfigured bs r n :
  initializeLoop (filter (λ b, IsConfigured b = true) bs) r n
  = initializeLoop bs r n.
Proof.
  revert r n. induction bs as [|b rest IH]; intros r n; [done|].
  destruct (IsConfigured b) eqn:Hc.
  - rewrite filter_cons_True by done. simpl. rewrite Hc. simpl.
    destruct (CreateProvider b) as [e|provider]; [done|].
    by destruct (Register r provider) as [r' [err|]].
  - rewrite filter_cons_False by (by rewrite Hc). simpl. rewrite Hc. apply IH.
Qed.

(** With no configured bootstrap at all, startup fails for want of a
    provider. *)
Lemma InitializeProviders_none_configured bm :
  Forall (λ b, IsConfigured b = false) (bootstraps bm) →
  InitializeProviders bm = (bm, Some ErrNoProvidersConfigured).
Proof.
  intros Hall. unfold InitializeProviders.
  assert (Hloop : ∀ r n, initializeLoop (bootstraps bm) r n = (r, inr n)).
  { induction Hall as [|b rest Hb _ IH]; intros r n; [done|].
    simpl. rewrite Hb. simpl. apply IH. }
  rewrite Hloop. simpl. by destruct bm.
Qed.

(** C5 (the claim fails here).  ["porkbun"] is configured, created and
    registered; the configured ["cloudflare"] bootstrap then fails in
    [CreateProvider]; [InitializeProviders] returns that error although
    a provider is live in the registry. *)
Lemma InitializeProviders_fails_after_one_activated :
  let bm := examples.managerAThenFailing in
  bootstraps bm = [examples.bootstrapA; examples.bootstrapFailing] ∧
  IsConfigured examples.bootstrapA = true ∧
  CreateProvider examples.bootstrapA = inr examples.providerA ∧
  (Register (registry bm) examples.providerA).2 = None ∧
  IsConfigured examples.bootstrapFailing = true ∧
  CreateProvider examples.bootstrapFailing = inl "invalid credentials" ∧
  (InitializeProviders bm).2
    = Some (ErrCreateProvider "cloudflare" "invalid credentials") ∧
  GetProvider (registry (InitializeProviders bm).1) "porkbun"
    = inr examples.providerA.
Proof. by vm_compute. Qed.



(** ** [Register]: what it refuses, what it writes *)

(** The entries the domain loop leaves in the map are the old ones and
    domains of the list pointing to the provider. *)
Lemma claimDomains_entries provider domains dm d q :
  (claimDomains provider domains dm).1 !! d = Some q →
  dm !! d = Some q ∨ (q = provider ∧ d ∈ domains).
Proof.
  revert dm. induction domains as [|a rest IH]; intros dm; simpl; [by left|].
  destruct (dm !! a) as [existing|] eqn:Ha; simpl; [by left|].
  intros [Hd|[-> Hd]]%IH.
  - destruct (decide (a = d)) as [->|Hne].
    + rewrite lookup_insert_eq in Hd. injection Hd as <-.
      right. split; [done|by apply elem_of_cons; left].
    + rewrite lookup_insert_ne in Hd by done. by left.
  - right. split; [done|by apply elem_of_cons; right].
Qed.

(** The loop runs to its end exactly when the list has no domain twice
    and none of its domains is a key already; the map then grows by the
    length of the list. *)
Lemma claimDomains_None provider domains dm :
  (claimDomains provider domains dm).2 = None ↔
  NoDup domains ∧ ∀ d, d ∈ domains → dm !! d = None.
Proof.
  revert dm. induction domains as [|a rest IH]; intros dm; simpl.
  - split; [|done]. intros _. split; [constructor|].
    intros d Hd. by apply elem_of_nil in Hd.
  - destruct (dm !! a) as [existing|] eqn:Ha; simpl.
    + split; [done|]. intros [_ Hfree].
      rewrite Hfree in Ha; [done|by apply elem_of_cons; left].
    + rewrite IH. split.
      * intros [Hnd Hfree]. split.
        -- constructor; [|done]. intros Hin.
           specialize (Hfree a Hin). by rewrite lookup_insert_eq in Hfree.
        -- intros d [->|Hd]%elem_of_cons; [done|].
           specialize (Hfree d Hd).
           destruct (decide (a = d)) as [->|Hne].
           ++ by rewrite lookup_insert_eq in Hfree.
           ++ by rewrite lookup_insert_ne in Hfree.
      * intros [Hnd Hfree]. apply NoDup_cons in Hnd as [Hnotin Hnd].
        split; [done|]. intros d Hd.
        rewrite lookup_insert_ne; [|by intros ->].
        apply Hfree. by apply elem_of_cons; right.
Qed.

Lemma claimDomains_size provider domains dm dm' :
  claimDomains provider domains dm = (dm', None) →
  size dm' = size dm + length domains.
Proof.
  revert dm. induction domains as [|a rest IH]; intros dm; simpl.
  - intros [= <-]. lia.
  - destruct (dm !! a) as [existing|] eqn:Ha; [done|].
    intros Hrun%IH. rewrite Hrun, map_size_insert_None by done. lia.
Qed.

(** An error of the domain loop reports a domain of the list under the
    name of the provider that holds it: one that held it before, or the
    provider the loop runs for. *)
Lemma claimDomains_error provider domains dm e :
  (claimDomains provider domains dm).2 = Some e →
  ∃ d q, e = ErrDomainAlreadyManaged d (GetProviderName q) ∧
         d ∈ domains ∧ (dm !! d = Some q ∨ q = provider).
Proof.
  revert dm. induction domains as [|a rest IH]; intros dm; simpl; [done|].
  destruct (dm !! a) as [existing|] eqn:Ha; simpl.
  - intros [= <-]. exists a, existing.
    split_and!; [done|by apply elem_of_cons; left|by left].
  - intros (d & q & -> & Hd & Hq)%IH. exists d, q.
    split_and!; [done|by apply elem_of_cons; right|].
    destruct Hq as [Hq|Hq]; [|by right].
    destruct (decide (a = d)) as [->|Hne].
    + rewrite lookup_insert_eq in Hq. right. congruence.
    + rewrite lookup_insert_ne in Hq by done. by left.
Qed.

(** An entry of the provider map or of the domain map is still there,
    unchanged, after [Register]. *)
Lemma Register_keeps r provider :
  (∀ n q, providers r !! n = Some q →
     providers (Register r provider).1 !! n = Some q) ∧
  (∀ d q, domainMap r !! d = Some q →
     domainMap (Register r provider).1 !! d = Some q).
Proof.
  unfold Register.
  destruct (providers r !! GetProviderName provider) as [q0|] eqn:Hname;
    [done|].
  destruct (ValidateConfiguration provider); [done|].
  pose proof (claimDomains_keeps provider (GetDomains provider) (domainMap r))
    as Hkeep.
  destruct (claimDomains _ _ _) as [dm res]. simpl in *. split.
  - intros n q Hn. rewrite lookup_insert_ne; [done|]. congruence.
  - intros d q Hd. by apply Hkeep.
Qed.

(** When [Register] returns nil. *)
Lemma Register_None_iff r provider :
  (Register r provider).2 = None ↔
  providers r !! GetProviderName provider = None ∧
  ValidateConfiguration provider = None ∧
  NoDup (GetDomains provider) ∧
  ∀ d, d ∈ GetDomains provider → domainMap r !! d = None.
Proof.
  unfold Register.
  destruct (providers r !! GetProviderName provider) as [q0|] eqn:Hname;
    simpl; [by split; [|intros [? _]]|].
  destruct (ValidateConfiguration provider) as [err|] eqn:Hvalid;
    simpl; [by split; [|intros (_ & ? & _)]|].
  pose proof (claimDomains_None provider (GetDomains provider) (domainMap r))
    as Hloop.
  destruct (claimDomains _ _ _) as [dm res]. simpl in *.
  rewrite Hloop. split; [by intros [? ?]|by intros (_ & _ & ? & ?)].
Qed.

(** X1.  The outcome of [Register].  It succeeds exactly when the name
    is new, the configuration is valid, the provider lists no domain
    twice and none of its domains is in the domain map yet.  Otherwise
    it returns one of three errors, looked for in this order: the name
    is taken, and the registry is returned as it was; the configuration
    is invalid, and the registry is returned as it was; a domain of the
    provider is held, by a provider that held it before or by the
    provider itself, and then the provider is in the provider map
    when [Register] returns. *)
Theorem Register_outcome r provider :
  let name := GetProviderName provider in
  ((Register r provider).2 = None ↔
   providers r !! name = None ∧
   ValidateConfiguration provider = None ∧
   NoDup (GetDomains provider) ∧
   ∀ d, d ∈ GetDomains provider → domainMap r !! d = None) ∧
  ∀ e, (Register r provider).2 = Some e →
    (is_Some (providers r !! name) ∧
     Register r provider = (r, Some (ErrAlreadyRegistered name))) ∨
    (providers r !! name = None ∧
     ∃ err, ValidateConfiguration provider = Some err ∧
       Register r provider = (r, Some (ErrConfigurationInvalid name err))) ∨
    (providers r !! name = None ∧
     ValidateConfiguration provider = None ∧
     providers (Register r provider).1 !! name = Some provider ∧
     ∃ d q, e = ErrDomainAlreadyManaged d (GetProviderName q) ∧
            d ∈ GetDomains provider ∧
            (domainMap r !! d = Some q ∨ q = provider)).
Proof.
  intros name. split; [apply Register_None_iff|]. subst name.
  intros e. unfold Register.
  destruct (providers r !! GetProviderName provider) as [q0|] eqn:Hname.
  { intros _. left. eauto. }
  destruct (ValidateConfiguration provider) as [err|] eqn:Hvalid.
  { intros _. right; left. eauto. }
  pose proof (claimDomains_error provider (GetDomains provider) (domainMap r) e)
    as Herr.
  destruct (claimDomains _ _ _) as [dm res]. simpl in *.
  intros He. right; right. split_and!; [done|done| |by apply Herr].
  by rewrite lookup_insert_eq.
Qed.

(** X2.  After a successful [Register] the provider is found under its
    name, each of its domains resolves to it, every other domain
    resolves as before, the provider list is one longer and the domain
    list longer by the number of the provider's domains. *)
Theorem Register_success_effect r provider r' :
  Register r provider = (r', None) →
  GetProvider r' (GetProviderName provider) = inr provider ∧
  (∀ d, d ∈ GetDomains provider → GetProviderForDomain r' d = inr provider) ∧
  (∀ d, d ∉ GetDomains provider →
     GetProviderForDomain r' d = GetProviderForDomain r d) ∧
  length (ListProviders r') = S (length (ListProviders r)) ∧
  length (ListDomains r')
    = length (ListDomains r) + length (GetDomains provider).
Proof.
  intros Hreg. destruct (Register_ok _ _ _ Hreg) as [Hprov Hdom].
  assert (Hnew : providers r !! GetProviderName provider = None).
  { pose proof (proj1 (Register_None_iff r provider)) as Hiff.
    rewrite Hreg in Hiff. by apply Hiff. }
  split_and!.
  - unfold GetProvider. by rewrite Hprov, lookup_insert_eq.
  - intros d Hd. unfold GetProviderForDomain.
    by rewrite Hdom, decide_True.
  - intros d Hd. unfold GetProviderForDomain.
    by rewrite Hdom, decide_False.
  - unfold ListProviders. rewrite !length_fmap, !length_map_to_list, Hprov.
    by apply map_size_insert_None.
  - rewrite !length_ListDomains. revert Hreg. unfold Register.
    rewrite Hnew. destruct (ValidateConfiguration provider); [done|].
    destruct (claimDomains _ _ _) as [dm res] eqn:Hloop.
    intros [= <- ->]. simpl. by apply (claimDomains_size provider).
Qed.


Lemma consistent_new : consistent NewCertificateProviderRegistry.
Proof.
  split; intros ? ? Hlook; simpl in Hlook; by rewrite lookup_empty in Hlook.
Qed.

Lemma Register_consistent r provider :
  consistent r → consistent (Register r provider).1.
Proof.
  intros [Hdom Hprov]. unfold Register.
  destruct (providers r !! GetProviderName provider) as [q0|] eqn:Hname;
    [done|].
  destruct (ValidateConfiguration provider) as [err|] eqn:Hvalid; [done|].
  pose proof (claimDomains_entries provider (GetDomains provider) (domainMap r))
    as Hentries.
  destruct (claimDomains _ _ _) as [dm res]. simpl in *. split; simpl.
  - intros d q [Hold|[-> Hd]]%Hentries.
    + destruct (Hdom d q Hold) as [Hq Hin]. split; [|done].
      rewrite lookup_insert_ne; [done|]. congruence.
    + by rewrite lookup_insert_eq.
  - intros n q. destruct (decide (GetProviderName provider = n)) as [<-|Hne].
    + rewrite lookup_insert_eq. by intros [= <-].
    + rewrite lookup_insert_ne by done. apply Hprov.
Qed.

(** X3.  In a registry that calls of [Register] have built from a new
    one, failed calls included, a domain only ever resolves to a
    provider that lists it, that is registered under its own name, and
    whose configuration is valid. *)
Theorem reachable_registry_is_consistent r :
  reachable r →
  ∀ d p, GetProviderForDomain r d = inr p →
    d ∈ GetDomains p ∧
    GetProvider r (GetProviderName p) = inr p ∧
    ValidateConfiguration p = None.
Proof.
  intros Hreach.
  assert (Hcons : consistent r).
  { induction Hreach; [apply consistent_new|by apply Register_consistent]. }
  destruct Hcons as [Hdom Hprov]. intros d p.
  unfold GetProviderForDomain, GetProvider.
  destruct (domainMap r !! d) as [q|] eqn:Hd; [|done]. intros [= ->].
  destruct (Hdom d p Hd) as [Hp Hin]. rewrite Hp.
  split_and!; [done|done|]. by destruct (Hprov _ _ Hp).
Qed.

Lemma reachable_registry_is_consistent_witness :
  "a.com" ∈ domain.GetDomains examples.providerA ∧
  GetProvider (Register examples.registryA examples.providerBA).1
    (GetProviderName examples.providerA) = inr examples.providerA ∧
  ValidateConfiguration examples.providerA = None.
Proof.
  apply (reachable_registry_is_consistent
           (Register examples.registryA examples.providerBA).1).
  - apply reachable_Register. apply reachable_Register. apply reachable_new.
  - by vm_compute.
Defined.

(** X4.  [ListDomains] and [ListProviders] list every key once: a
    domain is listed exactly when it resolves, a name exactly when its
    provider is found. *)
Theorem ListDomains_ListProviders_keys r :
  NoDup (ListDomains r) ∧
  (∀ d, d ∈ ListDomains r ↔ ∃ p, GetProviderForDomain r d = inr p) ∧
  NoDup (ListProviders r) ∧
  (∀ n, n ∈ ListProviders r ↔ ∃ p, GetProvider r n = inr p).
Proof.
  unfold ListDomains, ListProviders, GetProviderForDomain, GetProvider.
  split_and!.
  - apply NoDup_fst_map_to_list.
  - intros d. rewrite list_elem_of_fmap. split.
    + intros [[d' p] [-> Hin%elem_of_map_to_list]]. simpl. rewrite Hin. eauto.
    + destruct (domainMap r !! d) as [p|] eqn:Hd; [|by intros [? ?]].
      intros _. exists (d, p). split; [done|]. by apply elem_of_map_to_list.
  - apply NoDup_fst_map_to_list.
  - intros n. rewrite list_elem_of_fmap. split.
    + intros [[n' p] [-> Hin%elem_of_map_to_list]]. simpl. rewrite Hin. eauto.
    + destruct (providers r !! n) as [p|] eqn:Hn; [|by intros [? ?]].
      intros _. exists (n, p). split; [done|]. by apply elem_of_map_to_list.
Qed.


Lemma Register_success_effect_witness :
  GetProvider examples.registryA (GetProviderName examples.providerA)
    = inr examples.providerA ∧
  (∀ d, d ∈ GetDomains examples.providerA →
     GetProviderForDomain examples.registryA d = inr examples.providerA) ∧
  (∀ d, d ∉ GetDomains examples.providerA →
     GetProviderForDomain examples.registryA d
     = GetProviderForDomain NewCertificateProviderRegistry d) ∧
  length (ListProviders examples.registryA)
    = S (length (ListProviders NewCertificateProviderRegistry)) ∧
  length (ListDomains examples.registryA)
    = length (ListDomains NewCertificateProviderRegistry)
      + length (GetDomains examples.providerA).
Proof.
  apply (Register_success_effect NewCertificateProviderRegistry
           examples.providerA examples.registryA).
  by vm_compute.
Defined.

(** ** [InitializeProviders]: what a successful start-up leaves *)

(** The loop of [InitializeProviders] only adds to the registry. *)
Lemma initializeLoop_keeps bs r n :
  (∀ k q, providers r !! k = Some q →
     providers (initializeLoop bs r n).1 !! k = Some q) ∧
  (∀ d q, domainMap r !! d = Some q →
     domainMap (initializeLoop bs r n).1 !! d = Some q).
Proof.
  revert r n. induction bs as [|b rest IH]; intros r n; simpl; [done|].
  destruct (IsConfigured b); simpl; [|apply IH].
  destruct (CreateProvider b) as [e|provider]; simpl; [done|].
  destruct (Register_keeps r provider) as [Hp Hd].
  destruct (Register r provider) as [r1 [err|]]; simpl in *; [done|].
  destruct (IH r1 (S n)) as [Hp' Hd']. split; eauto.
Qed.

(** The registry [InitializeProviders] leaves is the one its loop
    leaves, and the bootstraps are as they were. *)
Lemma InitializeProviders_fields bm :
  registry (InitializeProviders bm).1
    = (initializeLoop (bootstraps bm) (registry bm) 0).1 ∧
  bootstraps (InitializeProviders bm).1 = bootstraps bm.
Proof.
  unfold InitializeProviders.
  destruct (initializeLoop _ _ _) as [r [err|m]]; [done|].
  by destruct (Nat.eqb m 0).
Qed.

(** X5.  The registry only grows.  A provider that is found under a
    name, and a provider a domain resolves to, are found and resolved
    to after [Register] and after [InitializeProviders] as before,
    whether the call succeeded or failed: no call replaces or removes
    what an earlier one registered. *)
Theorem registry_is_append_only r provider bm :
  (∀ n q, GetProvider r n = inr q →
     GetProvider (Register r provider).1 n = inr q) ∧
  (∀ d q, GetProviderForDomain r d = inr q →
     GetProviderForDomain (Register r provider).1 d = inr q) ∧
  (∀ n q, GetProvider (registry bm) n = inr q →
     GetProvider (registry (InitializeProviders bm).1) n = inr q) ∧
  (∀ d q, GetProviderForDomain (registry bm) d = inr q →
     GetProviderForDomain (registry (InitializeProviders bm).1) d = inr q).
Proof.
  destruct (Register_keeps r provider) as [Hp Hd].
  destruct (initializeLoop_keeps (bootstraps bm) (registry bm) 0) as [Hp' Hd'].
  destruct (InitializeProviders_fields bm) as [-> _].
  unfold GetProvider, GetProviderForDomain. split_and!.
  - intros n q. destruct (providers r !! n) as [q'|] eqn:Hn; [|done].
    intros [= ->]. by rewrite (Hp n q Hn).
  - intros d q. destruct (domainMap r !! d) as [q'|] eqn:Hq; [|done].
    intros [= ->]. by rewrite (Hd d q Hq).
  - intros n q. destruct (providers (registry bm) !! n) as [q'|] eqn:Hn; [|done].
    intros [= ->]. by rewrite (Hp' n q Hn).
  - intros d q. destruct (domainMap (registry bm) !! d) as [q'|] eqn:Hq; [|done].
    intros [= ->]. by rewrite (Hd' d q Hq).
Qed.

(** When the loop runs to its end, the count has grown by the number
    of configured bootstraps, and each of them has created a provider
    that was new to the registry the loop started from and is now
    registered with all its domains. *)
Lemma initializeLoop_success bs r n r' m :
  initializeLoop bs r n = (r', inr m) →
  m = n + length (filter (λ b, IsConfigured b = true) bs) ∧
  ∀ b, b ∈ bs → IsConfigured b = true →
    ∃ p, CreateProvider b = inr p ∧
         providers r !! GetProviderName p = None ∧
         (∀ d, d ∈ GetDomains p → domainMap r !! d = None) ∧
         providers r' !! GetProviderName p = Some p ∧
         (∀ d, d ∈ GetDomains p → domainMap r' !! d = Some p).
Proof.
  revert r n. induction bs as [|b rest IH]; intros r n; simpl.
  - intros [= <- <-]. split; [simpl; lia|].
    intros b Hb. by apply elem_of_nil in Hb.
  - destruct (IsConfigured b) eqn:Hconf; simpl.
    + rewrite filter_cons_True by done.
      destruct (CreateProvider b) as [e|provider] eqn:Hcreate; [done|].
      destruct (Register r provider) as [r1 [err|]] eqn:Hreg; [done|].
      intros Hloop. destruct (IH _ _ Hloop) as [Hm Hrest].
      split; [simpl; lia|].
      pose proof (proj1 (Register_None_iff r provider)) as Hfresh.
      rewrite Hreg in Hfresh. destruct (Hfresh eq_refl) as (Hn & _ & _ & Hd).
      destruct (Register_ok _ _ _ Hreg) as [Hprov Hdom].
      pose proof (initializeLoop_keeps rest r1 (S n)) as [Hkeep Hkeepd].
      rewrite Hloop in Hkeep, Hkeepd. simpl in Hkeep, Hkeepd.
      pose proof (Register_keeps r provider) as [Hmono Hmonod].
      rewrite Hreg in Hmono, Hmonod. simpl in Hmono, Hmonod.
      intros b' [->|Hin]%elem_of_cons Hconf'.
      * exists provider. split_and!; [done|done|done|..].
        -- apply Hkeep. by rewrite Hprov, lookup_insert_eq.
        -- intros d Hind. apply Hkeepd. by rewrite Hdom, decide_True.
      * destruct (Hrest b' Hin Hconf') as (p & Hc & Hn1 & Hd1 & Hp & Hdp).
        exists p. split_and!; [done| | |done|done].
        -- destruct (providers r !! GetProviderName p) as [q|] eqn:Hq; [|done].
           apply Hmono in Hq. congruence.
        -- intros d Hind.
           destruct (domainMap r !! d) as [q|] eqn:Hq; [|done].
           apply Hmonod in Hq. specialize (Hd1 d Hind). congruence.
    + rewrite filter_cons_False by (by rewrite Hconf).
      intros Hloop. destruct (IH _ _ Hloop) as [Hm Hrest]. split; [done|].
      intros b' [->|Hin]%elem_of_cons Hconf'; [congruence|by apply Hrest].
Qed.

(** Where the loop fails: at a configured bootstrap before which the
    loop runs to its end, with the create error of that bootstrap and
    the registry as the bootstraps before it left it, or with the
    error of registering its provider and the registry as that
    [Register] left it. *)
Lemma initializeLoop_first_failure bs r n r' err :
  initializeLoop bs r n = (r', inl err) →
  ∃ pre b0 rest r1 m,
    bs = (pre ++ b0 :: rest)%list ∧
    initializeLoop pre r n = (r1, inr m) ∧
    IsConfigured b0 = true ∧
    ((∃ e, CreateProvider b0 = inl e ∧ r' = r1 ∧
           err = ErrCreateProvider (BootstrapName b0) e) ∨
     (∃ p e, CreateProvider b0 = inr p ∧ Register r1 p = (r', Some e) ∧
             err = ErrRegisterProvider (BootstrapName b0) e)).
Proof.
  revert r n. induction bs as [|b rest IH]; intros r n; simpl; [done|].
  destruct (IsConfigured b) eqn:Hconf; simpl.
  - destruct (CreateProvider b) as [e|p] eqn:Hcreate.
    + intros [= <- <-]. exists [], b, rest, r, n.
      split_and!; [done|done|done|]. left. by exists e.
    + destruct (Register r p) as [r1 [e|]] eqn:Hreg.
      * intros [= <- <-]. exists [], b, rest, r, n.
        split_and!; [done|done|done|]. right. by exists p, e.
      * intros (pre & b0 & rest' & r2 & m & -> & Hpre & Hb0 & Hcase)%IH.
        exists (b :: pre), b0, rest', r2, m.
        split_and!; [done| |done|done].
        simpl. by rewrite Hconf, Hcreate, Hreg.
  - intros (pre & b0 & rest' & r2 & m & -> & Hpre & Hb0 & Hcase)%IH.
    exists (b :: pre), b0, rest', r2, m.
    split_and!; [done| |done|done]. simpl. by rewrite Hconf.
Qed.

(** C5, as the code has it.  When the [CreateProvider] of a configured
    bootstrap fails, [InitializeProviders] fails, whatever the other
    bootstraps do, and it fails at the first configured bootstrap whose
    creation or registration fails: every configured bootstrap before
    that one has created a provider, which is registered; the error
    carries the name of that bootstrap and its create error, or the
    error of registering its provider; the bootstraps after it are not
    asked, and the bootstrap whose [CreateProvider] fails is that one
    or comes after it. *)
Theorem InitializeProviders_create_error_is_fatal bm b :
  b ∈ bootstraps bm → IsConfigured b = true →
  (∃ e, CreateProvider b = inl e) →
  ∃ pre b0 rest r1,
    bootstraps bm = (pre ++ b0 :: rest)%list ∧
    b ∈ b0 :: rest ∧
    (∃ m, initializeLoop pre (registry bm) 0 = (r1, inr m)) ∧
    (∀ b', b' ∈ pre → IsConfigured b' = true →
       ∃ p, CreateProvider b' = inr p ∧
            GetProvider r1 (GetProviderName p) = inr p) ∧
    IsConfigured b0 = true ∧
    ((∃ e, CreateProvider b0 = inl e ∧
        InitializeProviders bm
        = ({| bootstraps := bootstraps bm; registry := r1 |},
           Some (ErrCreateProvider (BootstrapName b0) e))) ∨
     (∃ p e, CreateProvider b0 = inr p ∧
        (Register r1 p).2 = Some e ∧
        InitializeProviders bm
        = ({| bootstraps := bootstraps bm; registry := (Register r1 p).1 |},
           Some (ErrRegisterProvider (BootstrapName b0) e)))).
Proof.
  intros Hin Hconf [e0 Hfail].
  destruct (initializeLoop_create_error _ (registry bm) 0 _ Hin Hconf
              (ex_intro _ e0 Hfail)) as [name Hfails].
  unfold InitializeProviders.
  destruct (initializeLoop (bootstraps bm) (registry bm) 0)
    as [r' [err|m0]] eqn:Hloop;
    [|by destruct Hfails as [[? ?]|[? ?]]]. clear name Hfails.
  destruct (initializeLoop_first_failure _ _ _ _ _ Hloop)
    as (pre & b0 & rest & r1 & m & Hbs & Hpre & Hb0 & Hcase).
  destruct (initializeLoop_success _ _ _ _ _ Hpre) as [_ Hall].
  assert (Hcreated : ∀ b', b' ∈ pre → IsConfigured b' = true →
            ∃ p, CreateProvider b' = inr p ∧
                 GetProvider r1 (GetProviderName p) = inr p).
  { intros b' Hb' Hconf'.
    destruct (Hall b' Hb' Hconf') as (p & Hp & _ & _ & Hfound & _).
    exists p. split; [done|]. unfold GetProvider. by rewrite Hfound. }
  exists pre, b0, rest, r1. split_and!; [done| |by exists m|done|done|].
  - rewrite Hbs in Hin. apply elem_of_app in Hin as [Hpre'|Hrest]; [|done].
    destruct (Hcreated b Hpre' Hconf) as (p & Hp & _). congruence.
  - destruct Hcase as [(e & He & -> & ->)|(p & e & Hp & Hreg & ->)].
    + left. by exists e.
    + right. exists p, e. by rewrite Hreg.
Qed.

Lemma InitializeProviders_create_error_is_fatal_witness :
  let bm := examples.managerAThenFailing in
  ∃ pre b0 rest r1,
    bootstraps bm = (pre ++ b0 :: rest)%list ∧
    examples.bootstrapFailing ∈ b0 :: rest ∧
    (∃ m, initializeLoop pre (registry bm) 0 = (r1, inr m)) ∧
    (∀ b', b' ∈ pre → IsConfigured b' = true →
       ∃ p, CreateProvider b' = inr p ∧
            GetProvider r1 (GetProviderName p) = inr p) ∧
    IsConfigured b0 = true ∧
    ((∃ e, CreateProvider b0 = inl e ∧
        InitializeProviders bm
        = ({| bootstraps := bootstraps bm; registry := r1 |},
           Some (ErrCreateProvider (BootstrapName b0) e))) ∨
     (∃ p e, CreateProvider b0 = inr p ∧
        (Register r1 p).2 = Some e ∧
        InitializeProviders bm
        = ({| bootstraps := bootstraps bm; registry := (Register r1 p).1 |},
           Some (ErrRegisterProvider (BootstrapName b0) e)))).
Proof.
  intros bm.
  apply (InitializeProviders_create_error_is_fatal
           examples.managerAThenFailing examples.bootstrapFailing).
  - apply elem_of_cons; right. apply elem_of_cons; by left.
  - reflexivity.
  - by exists "invalid credentials".
Defined.

(** X6.  When [InitializeProviders] succeeds, at least one bootstrap is
    configured, and every configured bootstrap has created a provider
    that is now found under its name and to which each of its domains
    resolves. *)
Theorem InitializeProviders_success_activates_all bm bm' :
  InitializeProviders bm = (bm', None) →
  GetConfiguredProviders bm ≠ [] ∧
  ∀ b, b ∈ bootstraps bm → IsConfigured b = true →
    ∃ p, CreateProvider b = inr p ∧
         GetProvider (registry bm') (GetProviderName p) = inr p ∧
         ∀ d, d ∈ GetDomains p →
           GetProviderForDomain (registry bm') d = inr p.
Proof.
  unfold InitializeProviders.
  destruct (initializeLoop _ _ _) as [r' [err|m]] eqn:Hloop; [done|].
  destruct (Nat.eqb m 0) eqn:Hm; [done|]. intros [= <-]. simpl.
  destruct (initializeLoop_success _ _ _ _ _ Hloop) as [Hcount Hall].
  split.
  - unfold GetConfiguredProviders. intros Hnil%fmap_nil_inv.
    rewrite Hnil in Hcount. simpl in Hcount. subst m. done.
  - intros b Hb Hconf.
    destruct (Hall b Hb Hconf) as (p & Hc & _ & _ & Hp & Hd).
    exists p. split; [done|]. unfold GetProvider, GetProviderForDomain.
    rewrite Hp. split; [done|]. intros d Hin. by rewrite (Hd d Hin).
Qed.

Lemma InitializeProviders_success_activates_all_witness :
  let bm := NewBootstrapManager NewCertificateProviderRegistry in
  let bm1 := RegisterBootstrap bm examples.bootstrapA in
  GetConfiguredProviders bm1 ≠ [] ∧
  ∀ b, b ∈ bootstraps bm1 → IsConfigured b = true →
    ∃ p, CreateProvider b = inr p ∧
         GetProvider (registry (InitializeProviders bm1).1)
           (GetProviderName p) = inr p ∧
         ∀ d, d ∈ GetDomains p →
           GetProviderForDomain (registry (InitializeProviders bm1).1) d
           = inr p.
Proof.
  intros bm bm1.
  apply (InitializeProviders_success_activates_all bm1
           (InitializeProviders bm1).1).
  by vm_compute.
Defined.


(** Two configured bootstraps at different places of a list the loop
    ran through to its end created providers of different names and
    without a common domain. *)
Lemma initializeLoop_success_disjoint bs r n r' m i j b b' p p' :
  initializeLoop bs r n = (r', inr m) →
  i < j → bs !! i = Some b → bs !! j = Some b' →
  IsConfigured b = true → IsConfigured b' = true →
  CreateProvider b = inr p → CreateProvider b' = inr p' →
  GetProviderName p ≠ GetProviderName p' ∧
  ∀ d, d ∈ GetDomains p → d ∉ GetDomains p'.
Proof.
  revert r n i j. induction bs as [|b0 rest IH]; intros r n i j; [done|].
  intros Hloop Hij Hi Hj Hconf Hconf' Hc Hc'.
  destruct j as [|j]; [lia|]. simpl in Hj, Hloop.
  destruct i as [|i].
  - injection Hi as ->. rewrite Hconf, Hc in Hloop. simpl in Hloop.
    destruct (Register r p) as [r1 [err|]] eqn:Hreg; [done|].
    destruct (Register_ok _ _ _ Hreg) as [Hprov Hdom].
    destruct (initializeLoop_success _ _ _ _ _ Hloop) as [_ Hrest].
    destruct (Hrest b' (list_elem_of_lookup_2 _ _ _ Hj) Hconf')
      as (q & Hq & Hfresh & Hfreshd & _).
    assert (q = p') as -> by congruence. split.
    + intros Heq. by rewrite Hprov, <- Heq, lookup_insert_eq in Hfresh.
    + intros d Hd Hd'. specialize (Hfreshd d Hd').
      by rewrite Hdom, decide_True in Hfreshd.
  - simpl in Hi. destruct (IsConfigured b0); simpl in Hloop.
    + destruct (CreateProvider b0) as [e|p0]; [done|].
      destruct (Register r p0) as [r1 [err|]]; [done|].
      apply (IH r1 (S n) i j); [done|lia|done..].
    + apply (IH r n i j); [done|lia|done..].
Qed.

(** X7.  When [InitializeProviders] succeeds, the providers of two
    configured bootstraps registered at different places have different
    names and no domain in common. *)
Theorem InitializeProviders_success_disjoint bm bm' i j b b' p p' :
  InitializeProviders bm = (bm', None) →
  i ≠ j → bootstraps bm !! i = Some b → bootstraps bm !! j = Some b' →
  IsConfigured b = true → IsConfigured b' = true →
  CreateProvider b = inr p → CreateProvider b' = inr p' →
  GetProviderName p ≠ GetProviderName p' ∧
  ∀ d, d ∈ GetDomains p → d ∉ GetDomains p'.
Proof.
  unfold InitializeProviders.
  destruct (initializeLoop _ _ _) as [r' [err|m]] eqn:Hloop; [done|].
  destruct (Nat.eqb m 0); [done|]. intros _ Hij Hi Hj Hconf Hconf' Hc Hc'.
  destruct (decide (i < j)) as [Hlt|Hge].
  - by apply (initializeLoop_success_disjoint _ _ _ _ _ i j b b' p p' Hloop).
  - destruct (initializeLoop_success_disjoint _ _ _ _ _ j i b' b p' p Hloop)
      as [Hname Hdom]; [lia|done..|].
    split; [done|]. intros d Hd Hd'. by apply (Hdom d).
Qed.

Lemma InitializeProviders_success_disjoint_witness :
  let bm :=
    RegisterBootstrap
      (RegisterBootstrap (NewBootstrapManager NewCertificateProviderRegistry)
         examples.bootstrapA)
      examples.bootstrapB in
  GetProviderName examples.providerA ≠ GetProviderName examples.providerB ∧
  ∀ d, d ∈ GetDomains examples.providerA → d ∉ GetDomains examples.providerB.
Proof.
  intros bm.
  apply (InitializeProviders_success_disjoint bm (InitializeProviders bm).1
           0 1 examples.bootstrapA examples.bootstrapB);
    [by vm_compute|lia|reflexivity..].
Defined.

(** X8.  A bootstrap that is not configured has no part in start-up:
    [InitializeProviders] returns the same error and leaves the same
    registry as with the configured bootstraps alone; and with no
    configured bootstrap at all it fails for want of a provider and
    leaves the registry as it was. *)
Theorem InitializeProviders_ignores_unconfigured bm :
  let configured :=
    {| bootstraps := filter (λ b, IsConfigured b = true) (bootstraps bm);
       registry := registry bm |} in
  (InitializeProviders bm).2 = (InitializeProviders configured).2 ∧
  registry (InitializeProviders bm).1
    = registry (InitializeProviders configured).1 ∧
  (bootstraps configured = [] →
   InitializeProviders bm = (bm, Some ErrNoProvidersConfigured)).
Proof.
  intros configured. split_and!.
  - unfold InitializeProviders. simpl.
    rewrite initializeLoop_skips_unconfigured.
    destruct (initializeLoop _ _ _) as [r [err|m]]; [done|].
    by destruct (Nat.eqb m 0).
  - unfold InitializeProviders. simpl.
    rewrite initializeLoop_skips_unconfigured.
    destruct (initializeLoop _ _ _) as [r [err|m]]; [done|].
    by destruct (Nat.eqb m 0).
  - simpl. intros Hnone. apply InitializeProviders_none_configured.
    apply Forall_forall. intros b Hb.
    destruct (IsConfigured b) eqn:Hconf; [|done].
    assert (Hin : b ∈ filter (λ b, IsConfigured b = true) (bootstraps bm))
      by (by apply list_elem_of_filter).
    rewrite Hnone in Hin. by apply elem_of_nil in Hin.
Qed.

Lemma InitializeProviders_ignores_unconfigured_witness :
  InitializeProviders
    (RegisterBootstrap (NewBootstrapManager examples.registryA)
       examples.bootstrapUnconfigured)
  = (RegisterBootstrap (NewBootstrapManager examples.registryA)
       examples.bootstrapUnconfigured,
     Some ErrNoProvidersConfigured).
Proof.
  apply (InitializeProviders_ignores_unconfigured
           (RegisterBootstrap (NewBootstrapManager examples.registryA)
              examples.bootstrapUnconfigured)).
  reflexivity.
Defined.

(** The loop stops at the first configured bootstrap when the name of
    every provider the configured bootstraps create is taken. *)
Lemma initializeLoop_all_taken bs r n :
  (∀ b, b ∈ bs → IsConfigured b = true →
     ∃ p, CreateProvider b = inr p ∧
          is_Some (providers r !! GetProviderName p)) →
  (∃ b, b ∈ bs ∧ IsConfigured b = true) →
  ∃ b p,
    b ∈ bs ∧ IsConfigured b = true ∧ CreateProvider b = inr p ∧
    initializeLoop bs r n
    = (r, inl (ErrRegisterProvider (BootstrapName b)
                 (ErrAlreadyRegistered (GetProviderName p)))).
Proof.
  revert n. induction bs as [|b rest IH]; intros n Hall [b0 [Hin Hconf0]].
  - by apply elem_of_nil in Hin.
  - simpl. destruct (IsConfigured b) eqn:Hconf; simpl.
    + destruct (Hall b) as (p & Hp & [q Hq]);
        [by apply elem_of_cons; left|done|].
      exists b, p. rewrite Hp. unfold Register. rewrite Hq.
      split_and!; [by apply elem_of_cons; left|done|done|done].
    + destruct (IH n) as (b1 & p & Hb1 & Hc1 & Hp & Hloop).
      * intros b' Hb'. apply Hall. by apply elem_of_cons; right.
      * exists b0. split; [|done].
        apply elem_of_cons in Hin as [->|Hin]; [congruence|done].
      * exists b1, p. split_and!; [by apply elem_of_cons; right|done..].
Qed.

(** X9.  Start-up cannot be run twice while the bootstraps answer as
    before.  After [InitializeProviders] has succeeded, take a second
    run on the registry the first one left, in which every bootstrap is
    configured or not as it was in the first run and every bootstrap
    that created a provider then creates a provider of the same name
    now ([bs2] holds what the bootstraps answer in the second run; the
    domains of the providers may differ).  The second run fails at a
    configured bootstrap, the name of whose provider is taken, and
    leaves the registry as the first run left it.  (Without the
    condition a second run can end otherwise: a bootstrap asked anew
    may fail to create its provider.) *)
Theorem InitializeProviders_twice_fails bm bm' bs2 :
  InitializeProviders bm = (bm', None) →
  Forall2 (λ b b2,
      IsConfigured b2 = IsConfigured b ∧
      ∀ p, CreateProvider b = inr p →
        ∃ p2, CreateProvider b2 = inr p2 ∧
              GetProviderName p2 = GetProviderName p)
    (bootstraps bm) bs2 →
  let again := {| bootstraps := bs2; registry := registry bm' |} in
  ∃ b2 p2,
    b2 ∈ bs2 ∧ IsConfigured b2 = true ∧ CreateProvider b2 = inr p2 ∧
    InitializeProviders again
    = (again, Some (ErrRegisterProvider (BootstrapName b2)
                      (ErrAlreadyRegistered (GetProviderName p2)))).
Proof.
  unfold InitializeProviders at 1.
  destruct (initializeLoop _ _ _) as [r' [err|m]] eqn:Hfirst; [done|].
  destruct (Nat.eqb_spec m 0) as [|Hm]; [done|]. intros [= <-] Hsame.
  cbv zeta. simpl.
  destruct (initializeLoop_success _ _ _ _ _ Hfirst) as [Hcount Hall].
  destruct (initializeLoop_all_taken bs2 r' 0)
    as (b2 & p2 & Hb2 & Hc2 & Hp2 & Hloop).
  - intros b2 [i Hi]%list_elem_of_lookup Hconf2.
    destruct (Forall2_lookup_r _ _ _ _ _ Hsame Hi) as (b & Hb & Hconf & Hnames).
    destruct (Hall b (list_elem_of_lookup_2 _ _ _ Hb))
      as (p & Hp & _ & _ & Hfound & _); [congruence|].
    destruct (Hnames p Hp) as (p2 & Hp2 & Hname).
    exists p2. split; [done|]. rewrite Hname, Hfound. eauto.
  - destruct (filter (λ b, IsConfigured b = true) (bootstraps bm))
      as [|b l] eqn:Hfilter; [simpl in Hcount; lia|].
    assert (Hin : b ∈ filter (λ b, IsConfigured b = true) (bootstraps bm))
      by (rewrite Hfilter; by apply elem_of_cons; left).
    apply list_elem_of_filter in Hin as [Hconf [i Hi]%list_elem_of_lookup].
    destruct (Forall2_lookup_l _ _ _ _ _ Hsame Hi) as (b2 & Hb2 & Hconf2 & _).
    exists b2. split; [by apply (list_elem_of_lookup_2 _ i)|congruence].
  - exists b2, p2. split_and!; [done|done|done|].
    unfold InitializeProviders. simpl. by rewrite Hloop.
Qed.

Lemma InitializeProviders_twice_fails_witness :
  let bm1 := RegisterBootstrap
               (NewBootstrapManager NewCertificateProviderRegistry)
               examples.bootstrapA in
  let again := {| bootstraps := [examples.bootstrapA];
                  registry := registry (InitializeProviders bm1).1 |} in
  ∃ b2 p2,
    b2 ∈ [examples.bootstrapA] ∧ IsConfigured b2 = true ∧
    CreateProvider b2 = inr p2 ∧
    InitializeProviders again
    = (again, Some (ErrRegisterProvider (BootstrapName b2)
                      (ErrAlreadyRegistered (GetProviderName p2)))).
Proof.
  intros bm1 again.
  apply (InitializeProviders_twice_fails bm1 (InitializeProviders bm1).1
           [examples.bootstrapA]).
  - by vm_compute.
  - constructor; [|constructor].
    split; [reflexivity|]. intros p Hp. by exists p.
Defined.


(** When every key of the map that is a domain of the list belongs to
    the provider itself, an error of the loop names the provider. *)
Lemma claimDomains_own_conflict provider domains dm :
  (∀ d q, d ∈ domains → dm !! d = Some q → q = provider) →
  (claimDomains provider domains dm).2 = None ∨
  ∃ d, d ∈ domains ∧
       (claimDomains provider domains dm).2
       = Some (ErrDomainAlreadyManaged d (GetProviderName provider)).
Proof.
  revert dm. induction domains as [|a rest IH]; intros dm Hown; simpl;
    [by left|].
  destruct (dm !! a) as [existing|] eqn:Ha; simpl.
  - right. exists a. split; [by apply elem_of_cons; left|].
    by rewrite (Hown a existing) by (done || by apply elem_of_cons; left).
  - destruct (IH (<[a:=provider]> dm)) as [Hok|(d & Hd & Herr)].
    + intros d q Hd. destruct (decide (a = d)) as [->|Hne].
      * rewrite lookup_insert_eq. by intros [= <-].
      * rewrite lookup_insert_ne by done. apply Hown.
        by apply elem_of_cons; right.
    + by left.
    + right. exists d. split; [by apply elem_of_cons; right|done].
Qed.

(** X10.  A provider that lists one of its domains twice cannot be
    registered: with a new name, a valid configuration and none of its
    domains taken, [Register] still fails, reporting the repeated domain
    as already managed by the very provider that is being registered. *)
Theorem Register_repeated_domain_conflicts_with_itself r provider :
  providers r !! GetProviderName provider = None →
  ValidateConfiguration provider = None →
  (∀ d, d ∈ GetDomains provider → domainMap r !! d = None) →
  ¬ NoDup (GetDomains provider) →
  ∃ d, d ∈ GetDomains provider ∧
       (Register r provider).2
       = Some (ErrDomainAlreadyManaged d (GetProviderName provider)).
Proof.
  intros Hnew Hvalid Hfree Hdup.
  pose proof (Register_None_iff r provider) as Hiff.
  revert Hiff. unfold Register. rewrite Hnew, Hvalid.
  destruct (claimDomains_own_conflict provider (GetDomains provider)
              (domainMap r)) as [Hok|(d & Hd & Herr)].
  { intros d q Hd Hq. by rewrite (Hfree d Hd) in Hq. }
  - destruct (claimDomains _ _ _) as [dm res]. simpl in *.
    intros Hiff. apply Hiff in Hok. by destruct Hok as (_ & _ & ? & _).
  - destruct (claimDomains _ _ _) as [dm res]. simpl in *. eauto.
Qed.

Lemma Register_repeated_domain_conflicts_with_itself_witness :
  ∃ d, d ∈ GetDomains examples.providerTwice ∧
       (Register NewCertificateProviderRegistry examples.providerTwice).2
       = Some (ErrDomainAlreadyManaged d
                 (GetProviderName examples.providerTwice)).
Proof.
  apply (Register_repeated_domain_conflicts_with_itself
           NewCertificateProviderRegistry examples.providerTwice).
  - reflexivity.
  - reflexivity.
  - intros d _. apply lookup_empty.
  - intros Hnd. apply NoDup_cons in Hnd as [Hnotin _].
    apply Hnotin. by apply elem_of_cons; left.
Defined.


End registry_theory.

(** * The session tracker *)

Module session_theory.
Import session.
Local Open Scope Z_scope.

Lemma sessionExpiry_min (now expireDate : time.Time) :
  (if time.Before expireDate (time.Add now (30 * time.Minute)%Z)
   then expireDate else time.Add now (30 * time.Minute)%Z)
  = Z.min expireDate (now + 30 * time.Minute).
Proof.
  unfold time.Before, time.Add. destruct (Z.ltb_spec expireDate (now + 30 * time.Minute)); lia.
Qed.

Lemma CreateSession_holds sm uuid now u d e ds :
  holds (CreateSession sm uuid now u d e ds).1 uuid u ds
        (Z.min e (now + 30 * time.Minute)).
Proof.
  unfold holds, CreateSession. simpl. eexists. rewrite lookup_insert_eq.
  split; [done|]. simpl. split_and!; [done|done|apply sessionExpiry_min].
Qed.

Lemma call_keeps_holds sm id u ds expiry c :
  keeps id expiry c → holds sm id u ds expiry → holds (call sm c) id u ds expiry.
Proof.
  intros Hk (s & Hs & Hu & Hd & He). unfold holds.
  destruct c as [uuid now u' d' e' ds'|i now accessed|i|now]; simpl in *.
  - exists s. by rewrite lookup_insert_ne.
  - unfold GetSession.
    destruct (sessions sm !! i) as [si|] eqn:Hi; simpl; [|by exists s].
    destruct (time.After now (ExpireDate si)); simpl; [by exists s|].
    destruct (decide (i = id)) as [->|Hne].
    + rewrite lookup_insert_eq. exists (touch si accessed).
      assert (si = s) as -> by congruence. done.
    + exists s. by rewrite lookup_insert_ne.
  - exists s. by rewrite lookup_delete_ne.
  - exists s. split; [|done]. apply map_lookup_filter_Some. split; [done|].
    simpl. unfold time.After. rewrite He. apply Z.ltb_ge. lia.
Qed.

Lemma calls_keep_holds sm id u ds expiry cs :
  Forall (keeps id expiry) cs → holds sm id u ds expiry →
  holds (calls sm cs) id u ds expiry.
Proof.
  intros Hcs. revert sm. induction Hcs as [|c cs Hc _ IH]; intros sm Hh; [done|].
  unfold calls. simpl. apply IH. by apply call_keeps_holds.
Qed.

Lemma call_noCreate_goneOrExpiring sm id expiry c :
  noCreate id c → goneOrExpiring sm id expiry →
  goneOrExpiring (call sm c) id expiry.
Proof.
  intros Hn Hg s. destruct c as [uuid now u' d' e' ds'|i now accessed|i|now]; simpl in *.
  - rewrite lookup_insert_ne by done. apply Hg.
  - unfold GetSession.
    destruct (sessions sm !! i) as [si|] eqn:Hi; simpl; [|apply Hg].
    destruct (time.After now (ExpireDate si)); simpl; [apply Hg|].
    destruct (decide (i = id)) as [->|Hne].
    + rewrite lookup_insert_eq. intros [= <-]. simpl. by apply Hg.
    + rewrite lookup_insert_ne by done. apply Hg.
  - intros Hs. apply lookup_delete_Some in Hs as [_ Hs]. by apply Hg.
  - intros Hs. apply map_lookup_filter_Some in Hs as [Hs _]. by apply Hg.
Qed.

Lemma calls_noCreate_goneOrExpiring sm id expiry cs :
  Forall (noCreate id) cs → goneOrExpiring sm id expiry →
  goneOrExpiring (calls sm cs) id expiry.
Proof.
  intros Hcs. revert sm. induction Hcs as [|c cs Hc _ IH]; intros sm Hg; [done|].
  unfold calls. simpl. apply IH. by apply call_noCreate_goneOrExpiring.
Qed.

Lemma call_noCreate_gone sm id c :
  noCreate id c → sessions sm !! id = None → sessions (call sm c) !! id = None.
Proof.
  intros Hn Hg. destruct c as [uuid now u' d' e' ds'|i now accessed|i|now]; simpl in *.
  - by rewrite lookup_insert_ne.
  - unfold GetSession.
    destruct (sessions sm !! i) as [si|] eqn:Hi; simpl; [|done].
    destruct (time.After now (ExpireDate si)); simpl; [done|].
    rewrite lookup_insert_ne; [done|]. intros ->. congruence.
  - apply lookup_delete_None. by right.
  - apply map_lookup_filter_None. by left.
Qed.

Lemma calls_noCreate_gone sm id cs :
  Forall (noCreate id) cs → sessions sm !! id = None →
  sessions (calls sm cs) !! id = None.
Proof.
  intros Hcs. revert sm. induction Hcs as [|c cs Hc _ IH]; intros sm Hg; [done|].
  unfold calls. simpl. apply IH. by apply call_noCreate_gone.
Qed.

(** [GetSession] on a stored, unexpired session. *)
Lemma GetSession_found sm id s now accessed :
  sessions sm !! id = Some s → (now ≤ ExpireDate s)%Z →
  GetSession sm id now accessed
    = ({| sessions := <[id := touch s accessed]> (sessions sm) |},
       Some (touch s accessed), []).
Proof.
  intros Hs Hnow. unfold GetSession. rewrite Hs.
  unfold time.After. by rewrite (proj2 (Z.ltb_ge _ _) Hnow).
Qed.

(** [GetSession] on a stored, expired session: not found, the map as it
    was, and the deletion left to a goroutine. *)
Lemma GetSession_expired sm id s now accessed :
  sessions sm !! id = Some s → (ExpireDate s < now)%Z →
  GetSession sm id now accessed = (sm, None, [GoDeleteSession id]).
Proof.
  intros Hs Hnow. unfold GetSession. rewrite Hs.
  unfold time.After. by rewrite (proj2 (Z.ltb_lt _ _) Hnow).
Qed.

Lemma GetSession_absent sm id now accessed :
  sessions sm !! id = None → GetSession sm id now accessed = (sm, None, []).
Proof. intros Hs. unfold GetSession. by rewrite Hs. Qed.

(** C7.  [CreateSession] at time [now] stores, under the identifier it
    returns, a session that expires at the earlier of [expireDate] and
    [now] plus 30 minutes and whose [CreatedAt] and [LastAccessedAt] are
    [now]. *)
Theorem CreateSession_stores_session sm uuid now userID description
    expireDate allowedDomains :
  let created := CreateSession sm uuid now userID description expireDate
                   allowedDomains in
  sessions created.1 !! created.2
    = Some {| SessionID := created.2;
              UserID := userID;
              Description := description;
              ExpireDate := Z.min expireDate (time.Add now (30 * time.Minute)%Z);
              AllowedDomains := allowedDomains;
              CreatedAt := now;
              LastAccessedAt := now |}.
Proof.
  simpl. rewrite lookup_insert_eq. f_equal.
  by rewrite sessionExpiry_min.
Qed.

(** C8.  After [CreateSession] returned [sessionID], and whatever calls
    were made since:
    - when the calls left the session in place, [GetSession] at a time
      up to the expiry returns a session with the same [UserID] and
      [AllowedDomains] and with [LastAccessedAt] set to the time of the
      access, and stores it;
    - after [DeleteSession] of the identifier, [GetSession] is not found,
      as long as the identifier was not created anew;
    - at a time strictly after the expiry [GetSession] is not found, the
      deleting goroutine having run or not, as long as the identifier
      was not created anew. *)
Theorem GetSession_after_CreateSession sm uuid now userID description
    expireDate allowedDomains :
  let created := CreateSession sm uuid now userID description expireDate
                   allowedDomains in
  let sm1 := created.1 in
  let sessionID := created.2 in
  let expiry := Z.min expireDate (time.Add now (30 * time.Minute)%Z) in
  (∀ cs t accessed, Forall (keeps sessionID expiry) cs → (t ≤ expiry)%Z →
     ∃ s, (GetSession (calls sm1 cs) sessionID t accessed).1.2 = Some s ∧
          UserID s = userID ∧ AllowedDomains s = allowedDomains ∧
          LastAccessedAt s = accessed ∧
          sessions (GetSession (calls sm1 cs) sessionID t accessed).1.1
            !! sessionID = Some s) ∧
  (∀ cs cs' t accessed, Forall (noCreate sessionID) cs' →
     (GetSession (calls (DeleteSession (calls sm1 cs) sessionID) cs')
        sessionID t accessed).1.2 = None) ∧
  (∀ cs t accessed, Forall (noCreate sessionID) cs → (expiry < t)%Z →
     (GetSession (calls sm1 cs) sessionID t accessed).1.2 = None ∧
     ∀ g t' accessed',
       g ∈ (GetSession (calls sm1 cs) sessionID t accessed).2 →
       (GetSession
          (runGoroutine (GetSession (calls sm1 cs) sessionID t accessed).1.1 g)
          sessionID t' accessed').1.2 = None).
Proof.
  intros created sm1 sessionID expiry.
  assert (Hheld : holds sm1 sessionID userID allowedDomains expiry)
    by apply CreateSession_holds.
  split_and!.
  - intros cs t accessed Hcs Ht.
    destruct (calls_keep_holds _ _ _ _ _ _ Hcs Hheld) as (s & Hs & Hu & Hd & He).
    rewrite (GetSession_found _ _ s) by (by rewrite ?He). simpl.
    exists (touch s accessed). rewrite lookup_insert_eq. by split_and!.
  - intros cs cs' t accessed Hcs'.
    rewrite GetSession_absent; [done|].
    apply calls_noCreate_gone; [done|]. simpl. apply lookup_delete_eq.
  - intros cs t accessed Hcs Ht.
    assert (Hg : goneOrExpiring (calls sm1 cs) sessionID expiry).
    { apply calls_noCreate_goneOrExpiring; [done|].
      intros s Hs. destruct Hheld as (s' & Hs' & _ & _ & He). congruence. }
    destruct (sessions (calls sm1 cs) !! sessionID) as [s|] eqn:Hs.
    + rewrite (GetSession_expired _ _ s) by (by rewrite ?(Hg s Hs)). simpl.
      split; [done|].
      intros g t' accessed' Hin%list_elem_of_singleton. subst g. simpl.
      rewrite GetSession_absent; [done|]. simpl. apply lookup_delete_eq.
    + rewrite GetSession_absent by done. simpl. split; [done|].
      intros g t' accessed' Hin. by apply elem_of_nil in Hin.
Qed.

Lemma GetSession_after_CreateSession_witness :
  let created := CreateSession NewManager "6ba7b810-9dad-41d1-80b4-00c04fd430c8"
                   1800000000000000000 "alice" "deploy bot"
                   1800003600000000000 ["example.com"] in
  let sm1 := created.1 in
  let sessionID := created.2 in
  (∃ s, (GetSession
           (calls sm1 [CallGet sessionID 1800000060000000000
                         1800000060000000150;
                       CallCleanup 1800000300000000000])
           sessionID 1800001800000000000 1800001800000000150).1.2 = Some s ∧
        UserID s = "alice" ∧ AllowedDomains s = ["example.com"] ∧
        LastAccessedAt s = 1800001800000000150) ∧
  (GetSession (calls (DeleteSession (calls sm1 []) sessionID) [])
     sessionID 1800000060000000000 1800000060000000150).1.2 = None ∧
  (GetSession (calls sm1 []) sessionID 1800001800000000001
     1800001800000000150).1.2 = None.
Proof.
  intros created sm1 sessionID.
  destruct (GetSession_after_CreateSession NewManager
              "6ba7b810-9dad-41d1-80b4-00c04fd430c8"
              1800000000000000000 "alice" "deploy bot" 1800003600000000000
              ["example.com"]) as (Hget & Hdel & Hexp).
  split; [|split].
  - destruct (Hget [CallGet sessionID 1800000060000000000 1800000060000000150;
                    CallCleanup 1800000300000000000]
                1800001800000000000 1800001800000000150)
      as (s & Hs & Hu & Hd & Hl & _).
    + apply List.Forall_cons; [exact I|].
      apply List.Forall_cons; [by vm_compute|apply List.Forall_nil].
    + by vm_compute.
    + exists s. split; [exact Hs|]. split; [exact Hu|]. split; [exact Hd|exact Hl].
  - exact (Hdel [] [] 1800000060000000000 1800000060000000150
             (List.Forall_nil _)).
  - refine (proj1 (Hexp [] 1800001800000000001 1800001800000000150
                     (List.Forall_nil _) _)).
    by vm_compute.
Defined.

(** ** The sweep, deletion and the life of a session *)

Lemma lookup_CleanupExpiredSessions sm now id :
  sessions (CleanupExpiredSessions sm now) !! id
  = match sessions sm !! id with
    | Some s => if time.After now (ExpireDate s) then None else Some s
    | None => None
    end.
Proof.
  unfold CleanupExpiredSessions. simpl.
  destruct (sessions sm !! id) as [s|] eqn:Hs.
  - destruct (time.After now (ExpireDate s)) eqn:Hexp.
    + apply map_lookup_filter_None. right. intros s' Hs'. simpl.
      assert (s' = s) as -> by congruence. by rewrite Hexp.
    + apply map_lookup_filter_Some. by split.
  - apply map_lookup_filter_None. by left.
Qed.

Lemma Manager_eq sm sm' : sessions sm = sessions sm' → sm = sm'.
Proof. destruct sm, sm'. simpl. by intros ->. Qed.

(** X11.  [CleanupExpiredSessions] removes the sessions whose expiry
    is strictly before the time of the sweep and no other; a sweep
    followed by a later sweep is the later sweep alone (so a repeated
    sweep changes nothing); and right after a sweep no [GetSession] at
    that time starts a deleting goroutine. *)
Theorem CleanupExpiredSessions_removes_expired_only sm now :
  (∀ id,
     sessions (CleanupExpiredSessions sm now) !! id
     = match sessions sm !! id with
       | Some s => if decide (ExpireDate s < now) then None else Some s
       | None => None
       end) ∧
  (∀ later, now ≤ later →
     CleanupExpiredSessions (CleanupExpiredSessions sm now) later
     = CleanupExpiredSessions sm later) ∧
  (∀ id accessed,
     (GetSession (CleanupExpiredSessions sm now) id now accessed).2 = []).
Proof.
  split_and!.
  - intros id. rewrite lookup_CleanupExpiredSessions.
    destruct (sessions sm !! id) as [s|]; [|done].
    unfold time.After. destruct (Z.ltb_spec (ExpireDate s) now).
    + by rewrite decide_True.
    + by rewrite decide_False by lia.
  - intros later Hlater. apply Manager_eq, map_eq. intros id.
    rewrite !lookup_CleanupExpiredSessions.
    destruct (sessions sm !! id) as [s|]; [|done].
    unfold time.After.
    destruct (Z.ltb_spec (ExpireDate s) now);
      destruct (Z.ltb_spec (ExpireDate s) later); try done; lia.
  - intros id accessed. unfold GetSession.
    rewrite lookup_CleanupExpiredSessions.
    destruct (sessions sm !! id) as [s|]; [|done].
    destruct (time.After now (ExpireDate s)) eqn:Hexp; [done|].
    by rewrite Hexp.
Qed.

Lemma CleanupExpiredSessions_removes_expired_only_witness :
  CleanupExpiredSessions
    (CleanupExpiredSessions examples.managerTwoSessions 1800001000000000000)
    1800002000000000000
  = CleanupExpiredSessions examples.managerTwoSessions 1800002000000000000.
Proof.
  apply (proj1 (proj2 (CleanupExpiredSessions_removes_expired_only
                         examples.managerTwoSessions 1800001000000000000))).
  by vm_compute.
Defined.

(** X12.  A session lives 30 minutes at most and never beyond the
    expiry it was created with, however often it is read: after
    [CreateSession] at [now], and whatever calls follow that do not
    create the identifier anew, [GetSession] is not found at any time
    later than [now] plus 30 minutes or later than [expireDate]. *)
Theorem session_lifetime_is_capped sm uuid now userID description expireDate
    allowedDomains cs t accessed :
  Forall (noCreate uuid) cs →
  now + 30 * time.Minute < t ∨ expireDate < t →
  (GetSession
     (calls (CreateSession sm uuid now userID description expireDate
               allowedDomains).1 cs)
     uuid t accessed).1.2 = None.
Proof.
  intros Hcs Hlate.
  pose proof (CreateSession_holds sm uuid now userID description expireDate
                allowedDomains) as Hheld.
  remember (CreateSession sm uuid now userID description expireDate
              allowedDomains).1 as sm1 eqn:Hsm1. clear Hsm1.
  assert (Hg : goneOrExpiring (calls sm1 cs) uuid
                 (Z.min expireDate (now + 30 * time.Minute))).
  { apply calls_noCreate_goneOrExpiring; [done|]. intros s Hs.
    destruct Hheld as (s' & Hs' & _ & _ & He). congruence. }
  destruct (sessions (calls sm1 cs) !! uuid) as [s|] eqn:Hs.
  - rewrite (GetSession_expired _ _ s); [done|done|].
    rewrite (Hg s Hs). lia.
  - by rewrite GetSession_absent.
Qed.

Lemma session_lifetime_is_capped_witness :
  (GetSession
     (calls (CreateSession NewManager "6ba7b810-9dad-41d1-80b4-00c04fd430c8"
               1800000000000000000 "alice" "deploy bot"
               1900000000000000000 ["example.com"]).1
        [CallGet "6ba7b810-9dad-41d1-80b4-00c04fd430c8"
           1800000060000000000 1800000060000000150])
     "6ba7b810-9dad-41d1-80b4-00c04fd430c8"
     1800001800000000001 1800001800000000150).1.2 = None.
Proof.
  apply (session_lifetime_is_capped NewManager
           "6ba7b810-9dad-41d1-80b4-00c04fd430c8" 1800000000000000000
           "alice" "deploy bot" 1900000000000000000 ["example.com"]).
  - apply List.Forall_cons; [exact I|apply List.Forall_nil].
  - left. by vm_compute.
Defined.


Lemma calls_app sm cs cs' : calls sm (cs ++ cs') = calls (calls sm cs) cs'.
Proof. unfold calls. apply foldl_app. Qed.

(** X13.  Sessions created under different identifiers do not disturb
    one another: after any sequence of [CreateSession] and [GetSession]
    calls in which no identifier is created twice, every session that
    was created is found, with its [UserID] and [AllowedDomains], at
    any time up to its expiry. *)
Theorem distinct_sessions_all_resolve sm cs uuid now userID description
    expireDate allowedDomains t accessed :
  Forall createOrGet cs →
  NoDup (omap createdID cs) →
  CallCreate uuid now userID description expireDate allowedDomains ∈ cs →
  t ≤ Z.min expireDate (now + 30 * time.Minute) →
  ∃ s, (GetSession (calls sm cs) uuid t accessed).1.2 = Some s ∧
       UserID s = userID ∧ AllowedDomains s = allowedDomains.
Proof.
  intros Hcs Hnodup Hin Ht.
  apply list_elem_of_split in Hin as (cs1 & cs2 & ->).
  rewrite omap_app in Hnodup. simpl in Hnodup.
  apply NoDup_app in Hnodup as (_ & Hfresh & Hnodup).
  apply NoDup_cons in Hnodup as [Hnotin _].
  apply Forall_app in Hcs as [_ Hcs]. apply Forall_cons in Hcs as [_ Hcs].
  rewrite calls_app. unfold calls at 1. simpl. fold (calls
    (CreateSession (calls sm cs1) uuid now userID description expireDate
       allowedDomains).1 cs2).
  assert (Hkeeps : Forall (keeps uuid (Z.min expireDate (now + 30 * time.Minute)))
                     cs2).
  { apply Forall_forall. intros c Hc.
    pose proof (proj1 (Forall_forall _ _) Hcs c Hc) as Hkind.
    destruct c as [uuid' ? ? ? ? ?| | |]; simpl in *; try done.
    intros ->. apply Hnotin. apply list_elem_of_omap.
    eexists. split; [exact Hc|done]. }
  destruct (calls_keep_holds _ _ _ _ _ _ Hkeeps
              (CreateSession_holds (calls sm cs1) uuid now userID description
                 expireDate allowedDomains)) as (s & Hs & Hu & Hd & He).
  rewrite (GetSession_found _ _ s) by (by rewrite ?He). simpl.
  by exists (touch s accessed).
Qed.

Lemma distinct_sessions_all_resolve_witness :
  ∃ s, (GetSession examples.managerTwoSessions
          "6ba7b810-9dad-41d1-80b4-00c04fd430c8"
          1800000060000000000 1800000060000000150).1.2 = Some s ∧
       UserID s = "alice" ∧ AllowedDomains s = ["example.com"].
Proof.
  apply (distinct_sessions_all_resolve NewManager _
           "6ba7b810-9dad-41d1-80b4-00c04fd430c8" 1800000000000000000
           "alice" "deploy bot" 1800000600000000000 ["example.com"]).
  - apply List.Forall_cons; [exact I|].
    apply List.Forall_cons; [exact I|apply List.Forall_nil].
  - simpl. apply NoDup_cons. split.
    + intros Hin%list_elem_of_singleton. discriminate Hin.
    + apply NoDup_singleton.
  - apply elem_of_cons. by left.
  - by vm_compute.
Defined.

(** X14.  [GetSession] removes nothing and touches one session only:
    the identifiers stored are the same after the call, an expired
    session included, every other session is as it was, and the
    session read differs from the stored one in [LastAccessedAt] at
    most. *)
Theorem GetSession_changes_last_access_only sm id now accessed :
  let after := (GetSession sm id now accessed).1.1 in
  dom (sessions after) = dom (sessions sm) ∧
  (∀ id', id' ≠ id → sessions after !! id' = sessions sm !! id') ∧
  (∀ s, sessions sm !! id = Some s →
     ∃ s', sessions after !! id = Some s' ∧
           (s' = s ∨ s' = touch s accessed)).
Proof.
  unfold GetSession.
  destruct (sessions sm !! id) as [s|] eqn:Hs; simpl; [|by split_and!].
  destruct (time.After now (ExpireDate s)); simpl.
  - split_and!; [done|done|]. intros s0 [= <-]. exists s. by split; [|left].
  - split_and!.
    + rewrite dom_insert_L. apply elem_of_dom_2 in Hs.
      apply set_eq. intros k. rewrite elem_of_union, elem_of_singleton.
      split; [by intros [->|?]|by right].
    + intros id' Hne. by rewrite lookup_insert_ne.
    + intros s0 [= <-]. exists (touch s accessed).
      rewrite lookup_insert_eq. by split; [|right].
Qed.

Lemma GetSession_changes_last_access_only_witness :
  sessions (GetSession examples.managerTwoSessions
              "6ba7b810-9dad-41d1-80b4-00c04fd430c8"
              1800000060000000000 1800000060000000150).1.1
    !! "6ba7b811-9dad-41d1-80b4-00c04fd430c8"
  = sessions examples.managerTwoSessions
      !! "6ba7b811-9dad-41d1-80b4-00c04fd430c8".
Proof.
  apply (proj1 (proj2 (GetSession_changes_last_access_only
                         examples.managerTwoSessions
                         "6ba7b810-9dad-41d1-80b4-00c04fd430c8"
                         1800000060000000000 1800000060000000150))).
  discriminate.
Defined.


End session_theory.

(** * The token issuer and verifier *)

Module auth_theory.
Import auth.
Local Open Scope Z_scope.

(** ** The library *)

Lemma GetSigningMethod_Alg a m : jwt.GetSigningMethod a = Some m → a = jwt.Alg m.
Proof.
  unfold jwt.GetSigningMethod, jwt.signingMethods. intros Hm.
  apply elem_of_list_to_map_2 in Hm. simpl in Hm.
  repeat (apply elem_of_cons in Hm as [[= -> ->]|Hm]; [done|]).
  by apply elem_of_nil in Hm.
Qed.

Lemma GetSigningMethod_HS256 :
  jwt.GetSigningMethod "HS256" = Some jwt.SigningMethodHS256.
Proof. by vm_compute. Qed.

(** Only the three [HS] names are HMAC methods. *)
Lemma GetSigningMethod_not_HMAC a m :
  a ≠ "HS256" → a ≠ "HS384" → a ≠ "HS512" →
  jwt.GetSigningMethod a = Some m → jwt.isHMAC m = false.
Proof.
  intros H256 H384 H512 Hm. apply GetSigningMethod_Alg in Hm. subst a.
  by destruct m as [[]| | | | |].
Qed.

Lemma NewNumericDate_bounds t :
  jwt.NewNumericDate t ≤ t < jwt.NewNumericDate t + time.Second.
Proof.
  unfold jwt.NewNumericDate, time.Truncate, jwt.TimePrecision, time.Second.
  simpl. pose proof (Z.mod_pos_bound t 1000000000). lia.
Qed.

Lemma NewNumericDate_idemp t :
  jwt.NewNumericDate (jwt.NewNumericDate t) = jwt.NewNumericDate t.
Proof.
  unfold jwt.NewNumericDate, time.Truncate, jwt.TimePrecision, time.Second.
  simpl. rewrite Zminus_mod_idemp_r, Z.sub_diag, Z.mod_0_l; lia.
Qed.

(** Truncating to the second keeps the count of whole seconds. *)
Lemma exactSeconds_NewNumericDate t :
  jwt.exactSeconds t → jwt.exactSeconds (jwt.NewNumericDate t).
Proof.
  unfold jwt.exactSeconds, jwt.NewNumericDate, time.Truncate,
    jwt.TimePrecision, time.Second. simpl.
  replace ((t - t mod 1000000000) / 1000000000) with (t / 1000000000); [done|].
  rewrite Z.mod_eq by lia.
  replace (t - (t - 1000000000 * (t / 1000000000)))
    with (t / 1000000000 * 1000000000) by lia.
  by rewrite Z.div_mul.
Qed.

(** [plainWire] satisfies the laws. *)
Lemma plainWire_laws : @jwt.WireLaws JWTClaims plainWire encodable.
Proof. by constructor. Qed.

(** ** auth/jwt.go *)

Section WithWire.
Context `{W : jwt.Wire JWTClaims}.

(** The claims [CreateJWT] writes at time [now]. *)
Lemma CreateJWT_token now userID description expiresAt allowedDomains secret :
  let claims :=
    {| UserID := userID;
       Description := description;
       AllowedDomains := allowedDomains;
       Registered :=
         {| jwt.ExpiresAt := Some (jwt.NewNumericDate expiresAt);
            jwt.IssuedAt := Some (jwt.NewNumericDate now);
            jwt.NotBefore := Some (jwt.NewNumericDate now);
            jwt.Issuer := "go-cert-provider";
            jwt.Subject := userID;
            jwt.Audience := [];
            jwt.ID := "" |} |} in
  let header := {| jwt.typ := Some "JWT"; jwt.alg := Some "HS256" |} in
  let sstr := jwt.encodeSegments header claims in
  CreateJWT now userID description expiresAt allowedDomains secret
    = inr (jwt.Compact sstr (Some (jwt.hmac jwt.SHA256 secret sstr))).
Proof. reflexivity. Qed.

(** The verified path on a token that decodes, names [HS256] and carries
    the MAC of its signing string under the secret: the claims are
    returned exactly when the registered dates allow it, and nothing
    else is looked at. *)
Lemma ValidateJWTWithSecret_signed text header claims secret now :
  jwt.decodeSegments text = Some (header, claims) →
  jwt.alg header = Some "HS256" →
  jwt.Validate claims now = [] →
  ValidateJWTWithSecret
    (jwt.Compact text (Some (jwt.hmac jwt.SHA256 secret text))) secret now
    = inr claims.
Proof.
  intros Hdec Halg Hval.
  unfold ValidateJWTWithSecret, jwt.ParseWithClaims, jwt.ParseUnverified.
  rewrite Hdec, Halg, GetSigningMethod_HS256. simpl.
  rewrite decide_True by done. by rewrite Hval.
Qed.

(** The verified path never reports a missing [user_id] or
    [description]. *)
Lemma ValidateJWTWithSecret_no_missing_claim_error tokenString secret now e :
  ValidateJWTWithSecret tokenString secret now = inl e →
  isMissingClaimError e = false.
Proof.
  unfold ValidateJWTWithSecret.
  destruct (jwt.ParseWithClaims _ _ _) as [err|token]; [by intros [= <-]|].
  destruct (negb _); [by intros [= <-]|done].
Qed.

(** The errors of [jwt.Validate] for claims without [exp]. *)
Lemma Validate_no_exp (claims : JWTClaims) now :
  jwt.ExpiresAt (Registered claims) = None →
  existsb (λ c, match c with jwt.ErrTokenExpired => true | _ => false end)
    (jwt.Validate claims now) = false.
Proof.
  intros Hexp. unfold jwt.Validate, jwt.verifyExpiresAt, jwt.verifyNotBefore.
  simpl. rewrite Hexp. simpl.
  destruct (jwt.NotBefore _); [|done]. by destruct (_ || _).
Qed.

(** The claims [CreateJWT] writes at time [issued]. *)
Local Abbreviation issuedClaims issued userID description expiresAt
    allowedDomains :=
  {| UserID := userID;
     Description := description;
     AllowedDomains := allowedDomains;
     Registered :=
       {| jwt.ExpiresAt := Some (jwt.NewNumericDate expiresAt);
          jwt.IssuedAt := Some (jwt.NewNumericDate issued);
          jwt.NotBefore := Some (jwt.NewNumericDate issued);
          jwt.Issuer := "go-cert-provider";
          jwt.Subject := userID;
          jwt.Audience := [];
          jwt.ID := "" |} |}.

(** They are [encodable] when the strings [CreateJWT] was given are
    valid UTF-8 and the two instants are in the exact range. *)
Lemma CreateJWT_encodable (issued : time.Time) userID description
    (expiresAt : time.Time) allowedDomains :
  utf8.ValidString userID = true →
  utf8.ValidString description = true →
  Forall (λ d, utf8.ValidString d = true) allowedDomains →
  jwt.exactSeconds issued → jwt.exactSeconds expiresAt →
  encodable (issuedClaims issued userID description expiresAt allowedDomains).
Proof.
  intros Hu Hd Hdoms Hissued Hexp.
  pose proof (exactSeconds_NewNumericDate _ Hissued) as Hissued'.
  pose proof (exactSeconds_NewNumericDate _ Hexp) as Hexp'.
  split_and!; [done|done|done|].
  split_and!; simpl; [done|done|done| | | |done];
    (split; [apply NewNumericDate_idemp|done]).
Qed.

(** They decode from the signing string. *)
Lemma CreateJWT_decodes `{!jwt.WireLaws JWTClaims encodable}
    (issued : time.Time) userID description (expiresAt : time.Time)
    allowedDomains :
  let claims :=
    issuedClaims issued userID description expiresAt allowedDomains in
  let header := {| jwt.typ := Some "JWT"; jwt.alg := Some "HS256" |} in
  encodable claims →
  jwt.decodeSegments (jwt.encodeSegments header claims) = Some (header, claims).
Proof.
  intros claims header Henc. by apply jwt.decode_encode.
Qed.

(** C2, as the code has it.  With a wire format that satisfies the
    laws, a token issued at [issued] for an expiry [expiresAt], with a
    [userID], a [description] and domains that are valid UTF-8 and two
    instants within 2^53 seconds of the Unix epoch, and verified with
    the same non-empty key at a time [now], not before it was issued
    and before the expiry truncated to the whole second, is accepted,
    and the claims returned carry the [userID], [description] and
    [allowedDomains] it was issued for and an [ExpiresAt] that is
    [expiresAt] truncated to the second, less than a second away. *)
Theorem ParseJWT_CreateJWT_round_trip `{!jwt.WireLaws JWTClaims encodable}
    (issued now : time.Time) userID description (expiresAt : time.Time)
    allowedDomains secret :
  secret ≠ "" → userID ≠ "" → description ≠ "" →
  utf8.ValidString userID = true →
  utf8.ValidString description = true →
  Forall (λ d, utf8.ValidString d = true) allowedDomains →
  jwt.exactSeconds issued → jwt.exactSeconds expiresAt →
  issued ≤ now →
  now < jwt.NewNumericDate expiresAt →
  ∃ tokenString claims,
    CreateJWT issued userID description expiresAt allowedDomains secret
      = inr tokenString ∧
    ParseJWT tokenString secret now = inr claims ∧
    UserID claims = userID ∧
    Description claims = description ∧
    AllowedDomains claims = allowedDomains ∧
    jwt.ExpiresAt (Registered claims) = Some (jwt.NewNumericDate expiresAt) ∧
    Z.abs (time.Sub (jwt.NewNumericDate expiresAt) expiresAt) ≤ time.Second.
Proof.
  intros Hsecret _ _ Hu Hd Hdoms Hrange Hrange' Hissued Hnow.
  eexists _, _. split; [apply CreateJWT_token|].
  split.
  { unfold ParseJWT. rewrite decide_True by done.
    eapply ValidateJWTWithSecret_signed.
    - by apply CreateJWT_decodes, CreateJWT_encodable.
    - done.
    - unfold jwt.Validate, jwt.verifyExpiresAt, jwt.verifyNotBefore. simpl.
      unfold time.Before, time.After, time.Equal.
      rewrite (proj2 (Z.ltb_lt _ _) Hnow). simpl.
      pose proof (NewNumericDate_bounds issued) as [Hnbf _].
      destruct (Z.ltb_spec (jwt.NewNumericDate issued) now) as [|Hge]; [done|].
      simpl. rewrite (proj2 (Z.eqb_eq now (jwt.NewNumericDate issued))); [done|lia]. }
  split_and!; [done|done|done|done|].
  unfold time.Sub. pose proof (NewNumericDate_bounds expiresAt). lia.
Qed.

(** C3, as the code has it.  [CreateJWT] succeeds for every signing
    key, the empty one too, and for every [userID], [description] and
    [allowedDomains], empty or not: it returns the signing string of the
    claims with its [HS256] MAC under the key. *)
Theorem CreateJWT_succeeds_for_every_key (now : time.Time) userID description
    (expiresAt : time.Time) allowedDomains secret :
  ∃ header claims signature,
    CreateJWT now userID description expiresAt allowedDomains secret
      = inr (jwt.Compact (jwt.encodeSegments header claims) (Some signature)) ∧
    jwt.alg header = Some "HS256" ∧
    UserID claims = userID ∧
    Description claims = description ∧
    AllowedDomains claims = allowedDomains ∧
    signature = jwt.hmac jwt.SHA256 secret (jwt.encodeSegments header claims).
Proof.
  eexists _, _, _. split; [apply CreateJWT_token|]. by split_and!.
Qed.

(** C9.  A token whose claims decode without an [exp] is never refused
    as expired: not by [parseJWTWithoutVerification], not by
    [ValidateJWTWithSecret], whatever the secret and the time. *)
Theorem token_without_exp_is_never_expired text signature header claims
    secret (now : time.Time) :
  jwt.decodeSegments text = Some (header, claims) →
  jwt.ExpiresAt (Registered claims) = None →
  (∀ e, parseJWTWithoutVerification (jwt.Compact text signature) now = inl e →
        isExpiredError e = false) ∧
  (∀ e, ValidateJWTWithSecret (jwt.Compact text signature) secret now = inl e →
        isExpiredError e = false) ∧
  (∀ e, ParseJWT (jwt.Compact text signature) secret now = inl e →
        isExpiredError e = false).
Proof.
  intros Hdec Hexp.
  assert (Hunverified : ∀ e,
    parseJWTWithoutVerification (jwt.Compact text signature) now = inl e →
    isExpiredError e = false).
  { intros e. unfold parseJWTWithoutVerification, jwt.ParseUnverified.
    rewrite Hdec.
    destruct (jwt.alg header) as [a|]; [|by intros [= <-]].
    destruct (jwt.GetSigningMethod a); [|by intros [= <-]].
    simpl. rewrite Hexp.
    repeat case_decide; by intros [= <-]. }
  assert (Hverified : ∀ e,
    ValidateJWTWithSecret (jwt.Compact text signature) secret now = inl e →
    isExpiredError e = false).
  { intros e.
    unfold ValidateJWTWithSecret, jwt.ParseWithClaims, jwt.ParseUnverified.
    rewrite Hdec.
    destruct (jwt.alg header) as [a|]; [|by intros [= <-]].
    destruct (jwt.GetSigningMethod a) as [m|]; [|by intros [= <-]].
    destruct signature as [sig|]; [|by intros [= <-]].
    destruct (keyFunc _ _) as [err|key]; [by intros [= <-]|].
    simpl. destruct (jwt.Verify _ _ _ _); [by intros [= <-]|].
    pose proof (Validate_no_exp claims now Hexp) as Hval.
    destruct (jwt.Validate claims now) as [|c errs]; [done|].
    intros [= <-]. exact Hval. }
  split_and!; [done|done|].
  intros e. unfold ParseJWT. case_decide; auto.
Qed.

(** C10.  A token whose header names an algorithm other than [HS256],
    [HS384] and [HS512] is refused by [ValidateJWTWithSecret] whatever
    the secret: as malformed when its signature part does not decode,
    as unverifiable otherwise; its signature is never checked and its
    claims are never returned. *)
Theorem ValidateJWTWithSecret_rejects_non_HMAC text signature header claims
    a secret (now : time.Time) :
  jwt.decodeSegments text = Some (header, claims) →
  jwt.alg header = Some a →
  a ≠ "HS256" → a ≠ "HS384" → a ≠ "HS512" →
  ∃ err,
    ValidateJWTWithSecret (jwt.Compact text signature) secret now
      = inl (ErrFailedToValidate err) ∧
    (err = jwt.ErrTokenMalformed ∨ ∃ cause, err = jwt.ErrTokenUnverifiable cause).
Proof.
  intros Hdec Halg H256 H384 H512.
  unfold ValidateJWTWithSecret, jwt.ParseWithClaims, jwt.ParseUnverified.
  rewrite Hdec, Halg.
  destruct (jwt.GetSigningMethod a) as [m|] eqn:Hm; [|by eauto].
  destruct signature as [sig|]; [|by eauto].
  unfold keyFunc. simpl.
  rewrite (GetSigningMethod_not_HMAC a m) by done. by eauto.
Qed.


(** ** What the two paths accept *)

(** The default validator finds nothing exactly when the time is
    before [exp] and not before [nbf], where they are present. *)
Lemma Validate_nil_iff (claims : JWTClaims) now :
  jwt.Validate claims now = [] ↔
  (∀ exp, jwt.ExpiresAt (Registered claims) = Some exp → now < exp) ∧
  (∀ nbf, jwt.NotBefore (Registered claims) = Some nbf → nbf ≤ now).
Proof.
  unfold jwt.Validate. rewrite app_nil.
  assert (Hexp : jwt.verifyExpiresAt claims now = [] ↔
    ∀ exp, jwt.ExpiresAt (Registered claims) = Some exp → now < exp).
  { unfold jwt.verifyExpiresAt, time.Before. simpl.
    destruct (jwt.ExpiresAt (Registered claims)) as [exp|]; [|done].
    destruct (Z.ltb_spec now exp).
    - split; [by intros _ ? [= <-]|done].
    - split; [done|]. intros Hlt. specialize (Hlt _ eq_refl). lia. }
  assert (Hnbf : jwt.verifyNotBefore claims now = [] ↔
    ∀ nbf, jwt.NotBefore (Registered claims) = Some nbf → nbf ≤ now).
  { unfold jwt.verifyNotBefore, time.After, time.Equal. simpl.
    destruct (jwt.NotBefore (Registered claims)) as [nbf|]; [|done].
    destruct (Z.ltb_spec nbf now); simpl.
    - split; [|done]. intros _ ? [= <-]. lia.
    - destruct (Z.eqb_spec now nbf).
      + split; [|done]. intros _ ? [= <-]. lia.
      + split; [done|]. intros Hle. specialize (Hle _ eq_refl). lia. }
  by rewrite Hexp, Hnbf.
Qed.

Lemma GetSigningMethod_HMAC hash :
  jwt.GetSigningMethod (jwt.Alg (jwt.SigningMethodHMAC hash))
  = Some (jwt.SigningMethodHMAC hash).
Proof. destruct hash; by vm_compute. Qed.

(** X15.  [ValidateJWTWithSecret] returns claims for exactly the tokens
    whose two segments decode to a header and these claims, whose
    header names one of the HMAC methods, whose signature is the MAC of
    the signing string under the secret with the hash of that method,
    and whose [exp], if present, is after the time and whose [nbf], if
    present, is not: a token signed with [HS384] or [HS512] is accepted
    like one signed with [HS256], and no claims are ever returned from
    a token that lacks the MAC. *)
Theorem ValidateJWTWithSecret_accepts_iff tokenString secret
    (now : time.Time) claims :
  ValidateJWTWithSecret tokenString secret now = inr claims ↔
  ∃ text header hash,
    tokenString = jwt.Compact text (Some (jwt.hmac hash secret text)) ∧
    jwt.decodeSegments text = Some (header, claims) ∧
    jwt.alg header ≫= jwt.GetSigningMethod
      = Some (jwt.SigningMethodHMAC hash) ∧
    (∀ exp, jwt.ExpiresAt (Registered claims) = Some exp → now < exp) ∧
    (∀ nbf, jwt.NotBefore (Registered claims) = Some nbf → nbf ≤ now).
Proof.
  split.
  - unfold ValidateJWTWithSecret, jwt.ParseWithClaims, jwt.ParseUnverified.
    destruct tokenString as [|text sig]; [done|].
    destruct (jwt.decodeSegments text) as [[header c]|] eqn:Hdec; [|done].
    destruct (jwt.alg header) as [a|] eqn:Halg; [|done].
    destruct (jwt.GetSigningMethod a) as [m|] eqn:Hm; [|done].
    destruct sig as [sig|]; [|done].
    unfold keyFunc. simpl.
    destruct m as [hash| | | | |]; simpl; try done.
    destruct (decide (sig = jwt.hmac hash secret text)) as [->|]; [|done].
    destruct (jwt.Validate c now) as [|e errs] eqn:Hval; [|done].
    simpl. intros [= <-]. exists text, header, hash.
    split_and!; [done|done|by rewrite Halg|..];
      by apply Validate_nil_iff in Hval as [? ?].
  - intros (text & header & hash & -> & Hdec & Halg & Hexp & Hnbf).
    unfold ValidateJWTWithSecret, jwt.ParseWithClaims, jwt.ParseUnverified.
    rewrite Hdec. destruct (jwt.alg header) as [a|]; [|done].
    simpl in Halg. rewrite Halg. unfold keyFunc. simpl.
    rewrite decide_True by done.
    by rewrite (proj2 (Validate_nil_iff claims now)).
Qed.

(** X16.  Of a token whose third part is base64url,
    [parseJWTWithoutVerification] returns claims exactly when the two
    segments decode to a header and these claims, the header names a
    registered signing method, [exp], if present, is not before the
    time, and [user_id] and [description] are not empty; what the
    third part holds plays no role, and neither does [nbf]. *)
Theorem parseJWTWithoutVerification_accepts_iff text signature
    (now : time.Time) claims :
  parseJWTWithoutVerification (jwt.Compact text (Some signature)) now
    = inr claims ↔
  ∃ header,
    jwt.decodeSegments text = Some (header, claims) ∧
    is_Some (jwt.alg header ≫= jwt.GetSigningMethod) ∧
    (∀ exp, jwt.ExpiresAt (Registered claims) = Some exp → now ≤ exp) ∧
    UserID claims ≠ "" ∧ Description claims ≠ "".
Proof.
  unfold parseJWTWithoutVerification, jwt.ParseUnverified. split.
  - destruct (jwt.decodeSegments text) as [[header c]|] eqn:Hdec; [|done].
    destruct (jwt.alg header) as [a|] eqn:Halg; [|done].
    destruct (jwt.GetSigningMethod a) as [m|] eqn:Hm; [|done].
    simpl.
    destruct (match jwt.ExpiresAt (Registered c) with
              | Some exp => time.After now exp
              | None => false
              end) eqn:Hexp; [done|].
    destruct (decide (UserID c = "")); [done|].
    destruct (decide (Description c = "")); [done|].
    intros [= <-]. exists header.
    split_and!; [done|by rewrite Halg; simpl; rewrite Hm| |done|done].
    intros exp Hsome. rewrite Hsome in Hexp. unfold time.After in Hexp.
    by apply Z.ltb_ge in Hexp.
  - intros (header & Hdec & [m Hm] & Hexp & Hu & Hd).
    rewrite Hdec. destruct (jwt.alg header) as [a|]; [|done].
    simpl in Hm. rewrite Hm. simpl.
    destruct (jwt.ExpiresAt (Registered claims)) as [exp|] eqn:Hsome.
    + unfold time.After. rewrite (proj2 (Z.ltb_ge _ _) (Hexp exp eq_refl)).
      by rewrite !decide_False.
    + by rewrite !decide_False.
Qed.


(** ** Issued tokens *)

(** X17.  A token of [CreateJWT] on the verified path.  Issued at
    [issued] for the expiry [expiresAt] under the key [secret], with
    strings that are valid UTF-8 and the two instants within 2^53
    seconds of the Unix epoch, [ValidateJWTWithSecret] returns claims for it under a key [key] at
    the time [now] exactly when the key gives the signing string the
    same MAC and [now] is not before [issued] truncated to the second
    and before [expiresAt] truncated to the second; the claims are then
    those that were issued.  Under a key with another MAC the signature
    is reported invalid, whatever the time; at or after the truncated
    expiry the token is expired; and before the truncated issue time,
    as a verifier whose clock is behind sees it, the token is not valid
    yet. *)
Theorem issued_token_verified_window `{!jwt.WireLaws JWTClaims encodable}
    (issued : time.Time) userID description (expiresAt : time.Time)
    allowedDomains secret :
  utf8.ValidString userID = true →
  utf8.ValidString description = true →
  Forall (λ d, utf8.ValidString d = true) allowedDomains →
  jwt.exactSeconds issued → jwt.exactSeconds expiresAt →
  ∃ text claims,
    CreateJWT issued userID description expiresAt allowedDomains secret
      = inr (jwt.Compact text (Some (jwt.hmac jwt.SHA256 secret text))) ∧
    UserID claims = userID ∧
    Description claims = description ∧
    AllowedDomains claims = allowedDomains ∧
    ∀ key (now : time.Time),
      let answer :=
        ValidateJWTWithSecret
          (jwt.Compact text (Some (jwt.hmac jwt.SHA256 secret text))) key now in
      let sameMAC :=
        jwt.hmac jwt.SHA256 key text = jwt.hmac jwt.SHA256 secret text in
      (∀ c, answer = inr c ↔
         c = claims ∧ sameMAC ∧
         jwt.NewNumericDate issued ≤ now < jwt.NewNumericDate expiresAt) ∧
      (¬ sameMAC →
       answer = inl (ErrFailedToValidate
                       (jwt.ErrTokenSignatureInvalid jwt.ErrSignatureInvalid))) ∧
      (sameMAC → jwt.NewNumericDate expiresAt ≤ now →
       jwt.NewNumericDate issued ≤ now →
       answer = inl (ErrFailedToValidate
                       (jwt.ErrTokenInvalidClaims [jwt.ErrTokenExpired]))) ∧
      (sameMAC → now < jwt.NewNumericDate issued →
       now < jwt.NewNumericDate expiresAt →
       answer = inl (ErrFailedToValidate
                       (jwt.ErrTokenInvalidClaims [jwt.ErrTokenNotValidYet]))).
Proof.
  intros Hvalid Hvalid' Hdoms Hrange Hrange'.
  exists (jwt.encodeSegments
            {| jwt.typ := Some "JWT"; jwt.alg := Some "HS256" |}
            (issuedClaims issued userID description expiresAt allowedDomains)),
    (issuedClaims issued userID description expiresAt allowedDomains).
  split_and!; [done|done|done|done|]. intros key now answer sameMAC.
  subst answer sameMAC.
  unfold ValidateJWTWithSecret, jwt.ParseWithClaims, jwt.ParseUnverified.
  rewrite CreateJWT_decodes by (by apply CreateJWT_encodable).
  simpl jwt.alg. cbv iota beta.
  rewrite GetSigningMethod_HS256. unfold keyFunc. simpl.
  unfold jwt.Validate, jwt.verifyExpiresAt, jwt.verifyNotBefore,
    time.Before, time.After, time.Equal. simpl.
  set (exp := jwt.NewNumericDate expiresAt).
  set (nbf := jwt.NewNumericDate issued).
  set (text := jwt.encodeSegments _ _).
  destruct (decide (jwt.hmac jwt.SHA256 secret text
                    = jwt.hmac jwt.SHA256 key text)) as [Hmac|Hmac].
  - destruct (Z.ltb_spec now exp) as [Hexp|Hexp];
      destruct (Z.ltb_spec nbf now) as [Hnbf|Hnbf];
      destruct (Z.eqb_spec now nbf) as [Heq|Hne]; simpl;
      (split_and!;
       [intros c; split;
          [intros [= <-]; (done || split_and!; (done || lia))
          |intros (-> & _ & ?); (done || lia)]
       |by intros []
       |intros _ ? ?; (done || lia)
       |intros _ ? ?; (done || lia)]).
  - split_and!.
    + intros c. split; [done|]. by intros (_ & ? & _).
    + done.
    + by intros ?.
    + by intros ?.
Qed.

(** X18.  A token of [CreateJWT] in the mode without a secret.  For a
    token issued with strings that are valid UTF-8 and the two instants
    within 2^53 seconds of the Unix epoch, [ParseJWT] with the empty
    secret returns claims for the signing string of the token followed
    by any third part that is base64url, the key it was issued under
    playing no role, exactly when the time is not after [expiresAt]
    truncated to the second and the [userID] and the [description] it
    was issued for are not empty; the claims are then those that were
    issued.  So it accepts the token before its issue time and at the
    very instant of its expiry, where the verified path refuses it, and
    it refuses a token with an empty [userID] or [description], which
    the verified path accepts. *)
Theorem issued_token_unverified_window `{!jwt.WireLaws JWTClaims encodable}
    (issued : time.Time) userID description (expiresAt : time.Time)
    allowedDomains secret :
  utf8.ValidString userID = true →
  utf8.ValidString description = true →
  Forall (λ d, utf8.ValidString d = true) allowedDomains →
  jwt.exactSeconds issued → jwt.exactSeconds expiresAt →
  ∃ text claims,
    CreateJWT issued userID description expiresAt allowedDomains secret
      = inr (jwt.Compact text (Some (jwt.hmac jwt.SHA256 secret text))) ∧
    UserID claims = userID ∧
    Description claims = description ∧
    AllowedDomains claims = allowedDomains ∧
    ∀ signature (now : time.Time),
      let answer := ParseJWT (jwt.Compact text (Some signature)) "" now in
      (∀ c, answer = inr c ↔
         c = claims ∧ now ≤ jwt.NewNumericDate expiresAt ∧
         userID ≠ "" ∧ description ≠ "") ∧
      (jwt.NewNumericDate expiresAt < now → answer = inl ErrTokenIsExpired) ∧
      (now ≤ jwt.NewNumericDate expiresAt → userID = "" →
       answer = inl ErrUserIDRequired) ∧
      (now ≤ jwt.NewNumericDate expiresAt → userID ≠ "" → description = "" →
       answer = inl ErrDescriptionRequired).
Proof.
  intros Hvalid Hvalid' Hdoms Hrange Hrange'.
  exists (jwt.encodeSegments
            {| jwt.typ := Some "JWT"; jwt.alg := Some "HS256" |}
            (issuedClaims issued userID description expiresAt allowedDomains)),
    (issuedClaims issued userID description expiresAt allowedDomains).
  split_and!; [done|done|done|done|].
  intros signature now answer. subst answer.
  unfold ParseJWT. rewrite decide_False by (by intros ?).
  unfold parseJWTWithoutVerification, jwt.ParseUnverified.
  rewrite CreateJWT_decodes by (by apply CreateJWT_encodable).
  simpl jwt.alg. cbv iota beta.
  rewrite GetSigningMethod_HS256. simpl. unfold time.After.
  set (exp := jwt.NewNumericDate expiresAt).
  destruct (Z.ltb_spec exp now) as [Hexp|Hexp].
  - split_and!; [|done|intros; lia|intros; lia].
    intros c. split; [done|]. intros (_ & ? & _). lia.
  - destruct (decide (userID = "")) as [Hu|Hu].
    + split_and!; [|intros; lia|done|done].
      intros c. split; [done|]. by intros (_ & _ & ? & _).
    + destruct (decide (description = "")) as [Hd|Hd].
      * split_and!; [|intros; lia|done|done].
        intros c. split; [done|]. by intros (_ & _ & _ & ?).
      * split_and!; [|intros; lia|done|done].
        intros c. split; [by intros [= <-]|by intros (-> & _)].
Qed.


End WithWire.


(** ** The functions on [plainWire] *)

(** C2 (the claim fails here).  At 08:00:00.2 a token is issued that
    expires at 08:00:00.7, half a second in the future; [exp] is written
    as 08:00:00, and verifying the token at once with the same key
    fails: the token is expired. *)
Lemma ParseJWT_rejects_subsecond_future_expiry :
  time.Before examples.t0 examples.tHalfSecond = true ∧
  ∃ tokenString,
    CreateJWT (W := plainWire) examples.t0 "alice" "deploy bot"
      examples.tHalfSecond ["example.com"] "secret" = inr tokenString ∧
    ParseJWT tokenString "secret" examples.t0
      = inl (ErrFailedToValidate
               (jwt.ErrTokenInvalidClaims [jwt.ErrTokenExpired])).
Proof.
  split; [reflexivity|]. eexists. split; [apply CreateJWT_token|].
  by vm_compute.
Qed.

Lemma ParseJWT_CreateJWT_round_trip_witness :
  ∃ tokenString claims,
    CreateJWT (W := plainWire) examples.t0 "alice" "deploy bot"
      examples.tHour ["example.com"; "*.example.com"] "secret"
      = inr tokenString ∧
    ParseJWT tokenString "secret" examples.tHalfSecond = inr claims ∧
    UserID claims = "alice" ∧
    Description claims = "deploy bot" ∧
    AllowedDomains claims = ["example.com"; "*.example.com"] ∧
    jwt.ExpiresAt (Registered claims)
      = Some (jwt.NewNumericDate examples.tHour) ∧
    Z.abs (time.Sub (jwt.NewNumericDate examples.tHour) examples.tHour)
      ≤ time.Second.
Proof.
  apply (ParseJWT_CreateJWT_round_trip (W := plainWire) (H := plainWire_laws)).
  - discriminate.
  - discriminate.
  - discriminate.
  - reflexivity.
  - reflexivity.
  - apply List.Forall_cons; [reflexivity|].
    apply List.Forall_cons; [reflexivity|apply List.Forall_nil].
  - split; by vm_compute.
  - split; by vm_compute.
  - by vm_compute.
  - by vm_compute.
Defined.

(** C3 (the claim fails here).  [CreateJWT] with the empty signing key
    returns a token. *)
Lemma CreateJWT_accepts_empty_key :
  ∃ tokenString,
    CreateJWT (W := plainWire) examples.t0 "alice" "deploy bot"
      examples.tHour ["example.com"] "" = inr tokenString.
Proof. eexists. apply CreateJWT_token. Qed.

(** C4 (the code at the failing input).  A token issued with an empty
    [userID], and one issued with an empty [description], verified with
    the key they were signed with before they expire: [ParseJWT] returns
    their claims, while [parseJWTWithoutVerification] refuses the same
    tokens for the missing claim. *)
Theorem ParseJWT_accepts_missing_required_claims :
  (∃ tokenString claims,
     CreateJWT (W := plainWire) examples.t0 "" "deploy bot"
       examples.tHour ["example.com"] "secret" = inr tokenString ∧
     ParseJWT tokenString "secret" examples.tHalfSecond = inr claims ∧
     UserID claims = "" ∧
     parseJWTWithoutVerification tokenString examples.tHalfSecond
       = inl ErrUserIDRequired) ∧
  (∃ tokenString claims,
     CreateJWT (W := plainWire) examples.t0 "alice" ""
       examples.tHour ["example.com"] "secret" = inr tokenString ∧
     ParseJWT tokenString "secret" examples.tHalfSecond = inr claims ∧
     Description claims = "" ∧
     parseJWTWithoutVerification tokenString examples.tHalfSecond
       = inl ErrDescriptionRequired).
Proof.
  split; eexists _, _; (split; [apply CreateJWT_token|]);
    (split; [by vm_compute|]); by vm_compute.
Qed.

Lemma token_without_exp_is_never_expired_witness :
  ((∀ e, parseJWTWithoutVerification examples.tokenWithoutExp
           examples.tTenYears = inl e → isExpiredError e = false) ∧
   (∀ e, ValidateJWTWithSecret examples.tokenWithoutExp "secret"
           examples.tTenYears = inl e → isExpiredError e = false) ∧
   (∀ e, ParseJWT examples.tokenWithoutExp "secret"
           examples.tTenYears = inl e → isExpiredError e = false)) ∧
  ParseJWT examples.tokenWithoutExp "secret" examples.tTenYears
    = inr examples.claimsWithoutExp ∧
  ParseJWT examples.tokenWithoutExp "" examples.tTenYears
    = inr examples.claimsWithoutExp.
Proof.
  split; [|by vm_compute].
  apply (token_without_exp_is_never_expired (W := plainWire)
           _ _ examples.hs256Header examples.claimsWithoutExp);
    reflexivity.
Defined.

Lemma ValidateJWTWithSecret_rejects_non_HMAC_witness :
  (∃ err,
     ValidateJWTWithSecret examples.tokenAlgNone "secret" examples.t0
       = inl (ErrFailedToValidate err) ∧
     (err = jwt.ErrTokenMalformed ∨
      ∃ cause, err = jwt.ErrTokenUnverifiable cause)) ∧
  (∃ err,
     ValidateJWTWithSecret examples.tokenAlgRS256 "secret" examples.t0
       = inl (ErrFailedToValidate err) ∧
     (err = jwt.ErrTokenMalformed ∨
      ∃ cause, err = jwt.ErrTokenUnverifiable cause)).
Proof.
  split.
  - apply (ValidateJWTWithSecret_rejects_non_HMAC (W := plainWire)
             _ _ examples.noneHeader examples.claimsWithoutExp "none");
      [reflexivity|reflexivity|discriminate..].
  - apply (ValidateJWTWithSecret_rejects_non_HMAC (W := plainWire)
             _ _ examples.rs256Header examples.claimsWithoutExp "RS256");
      [reflexivity|reflexivity|discriminate..].
Defined.


Lemma issued_token_verified_window_witness :
  ∃ tokenString,
    CreateJWT (W := plainWire) examples.t0 "alice" "deploy bot"
      examples.tHour ["example.com"] "secret" = inr tokenString ∧
    ValidateJWTWithSecret tokenString "other" examples.tHalfSecond
      = inl (ErrFailedToValidate
               (jwt.ErrTokenSignatureInvalid jwt.ErrSignatureInvalid)) ∧
    ValidateJWTWithSecret tokenString "secret" examples.tTenYears
      = inl (ErrFailedToValidate
               (jwt.ErrTokenInvalidClaims [jwt.ErrTokenExpired])).
Proof.
  destruct (issued_token_verified_window (W := plainWire)
              (H := plainWire_laws) examples.t0 "alice" "deploy bot"
              examples.tHour ["example.com"] "secret")
    as (text & claims & Hcreate & _ & _ & _ & Hwindow);
    [reflexivity|reflexivity
    |apply List.Forall_cons; [reflexivity|apply List.Forall_nil]
    |split; by vm_compute|split; by vm_compute|].
  eexists. split; [exact Hcreate|]. split.
  - apply (Hwindow "other" examples.tHalfSecond). discriminate.
  - apply (Hwindow "secret" examples.tTenYears);
      [reflexivity|by vm_compute|by vm_compute].
Defined.

Lemma issued_token_unverified_window_witness :
  ∃ text claims,
    CreateJWT (W := plainWire) examples.t0 "alice" "deploy bot"
      examples.tHour ["example.com"] "secret"
      = inr (jwt.Compact text (Some (jwt.hmac jwt.SHA256 "secret" text))) ∧
    ParseJWT (jwt.Compact text (Some "")) "" examples.t0 = inr claims ∧
    ParseJWT (jwt.Compact text (Some "forged")) "" examples.t0 = inr claims.
Proof.
  destruct (issued_token_unverified_window (W := plainWire)
              (H := plainWire_laws) examples.t0 "alice" "deploy bot"
              examples.tHour ["example.com"] "secret")
    as (text & claims & Hcreate & _ & _ & _ & Hwindow);
    [reflexivity|reflexivity
    |apply List.Forall_cons; [reflexivity|apply List.Forall_nil]
    |split; by vm_compute|split; by vm_compute|].
  exists text, claims. split; [exact Hcreate|]. split.
  - apply (Hwindow "" examples.t0).
    split_and!; [reflexivity|by vm_compute|discriminate|discriminate].
  - apply (Hwindow "forged" examples.t0).
    split_and!; [reflexivity|by vm_compute|discriminate|discriminate].
Defined.


End auth_theory.

(** * [strings.Split] and [strings.TrimSpace] *)

Module strings_theory.
Import strings.
Local Open Scope N_scope.

Lemma bytes_bounded s : Forall (λ b, b < 256) (bytes s).
Proof.
  unfold bytes. apply Forall_fmap, Forall_forall. intros a _.
  apply Ascii.N_ascii_bounded.
Qed.

Lemma bytes_ofBytes bs : Forall (λ b, b < 256) bs → bytes (ofBytes bs) = bs.
Proof.
  intros Hbs. unfold bytes, ofBytes.
  rewrite String.list_ascii_of_string_of_list_ascii.
  induction Hbs as [|b bs Hb _ IH]; [done|].
  rewrite !fmap_cons. f_equal; [by apply Ascii.N_ascii_embedding|exact IH].
Qed.

Lemma length_bytes s : length (bytes s) = String.length s.
Proof.
  unfold bytes. rewrite length_fmap.
  induction s as [|c s IH]; [done|]. simpl. by rewrite IH.
Qed.

Lemma ofBytes_nil_inv bs : ofBytes bs = "" → bs = [].
Proof. by destruct bs. Qed.

Lemma spaceWidth_nonempty bs : spaceWidth bs ≠ 0%nat → bs ≠ [].
Proof. by destruct bs. Qed.

Lemma spaceWidthRev_nonempty bs : spaceWidthRev bs ≠ 0%nat → bs ≠ [].
Proof. by destruct bs. Qed.

(** [dropSpaces] drops a number of bytes from the front, and with fuel
    for every byte it stops where no space begins. *)
Lemma dropSpaces_drop width fuel bs :
  ∃ k, dropSpaces width fuel bs = drop k bs.
Proof.
  revert bs. induction fuel as [|fuel IH]; intros bs; simpl; [by exists 0%nat|].
  destruct (width bs) as [|w]; [by exists 0%nat|].
  destruct (IH (drop (S w) bs)) as [k ->].
  exists (S w + k)%nat. by rewrite drop_drop.
Qed.

Lemma dropSpaces_stops width fuel bs :
  (∀ l, width l ≠ 0%nat → l ≠ []) →
  (length bs ≤ fuel)%nat →
  width (dropSpaces width fuel bs) = 0%nat.
Proof.
  intros Hwidth. revert bs.
  induction fuel as [|fuel IH]; intros bs Hlen; simpl.
  - destruct bs; [|simpl in Hlen; lia].
    destruct (width []) eqn:Hw; [done|]. by destruct (Hwidth [] ltac:(lia)).
  - destruct (width bs) as [|w] eqn:Hw; [done|].
    apply IH. rewrite length_drop.
    assert (bs ≠ []) by (apply Hwidth; lia).
    destruct bs; [done|]. simpl in *. lia.
Qed.

(** A list begins with a space only if every longer list does. *)
Lemma spaceWidth_take m bs :
  spaceWidth bs = 0%nat → spaceWidth (take m bs) = 0%nat.
Proof.
  destruct bs as [|b0 [|b1 [|b2 rest]]];
    destruct m as [|[|[|m]]]; simpl; try done;
    destruct (asciiSpace b0); try done;
    destruct (space2 b0 b1); try done.
Qed.

(** The bytes of [TrimSpace s] are a segment of the bytes of [s] at
    whose two ends no white space is left. *)
Lemma TrimSpace_bytes s :
  ∃ k m, bytes (TrimSpace s) = take m (drop k (bytes s)) ∧
         spaceWidth (bytes (TrimSpace s)) = 0%nat ∧
         spaceWidthRev (rev (bytes (TrimSpace s))) = 0%nat.
Proof.
  unfold TrimSpace.
  destruct (dropSpaces_drop spaceWidth (String.length s) (bytes s))
    as [k Hleft].
  assert (Hstop : spaceWidth (dropSpaces spaceWidth (String.length s) (bytes s))
                  = 0%nat).
  { apply dropSpaces_stops; [apply spaceWidth_nonempty|].
    by rewrite length_bytes. }
  rewrite Hleft in *. set (left := drop k (bytes s)) in *.
  destruct (dropSpaces_drop spaceWidthRev (length left) (rev left))
    as [j Hright].
  assert (Hstop' : spaceWidthRev
                     (dropSpaces spaceWidthRev (length left) (rev left))
                   = 0%nat).
  { apply dropSpaces_stops; [apply spaceWidthRev_nonempty|].
    by rewrite length_rev. }
  assert (Hseg : rev (dropSpaces spaceWidthRev (length left) (rev left))
                 = take (length left - j) left).
  { rewrite Hright. by rewrite List.skipn_rev, rev_involutive. }
  assert (Hbytes : bytes (ofBytes (take (length left - j) left))
                   = take (length left - j) left).
  { apply bytes_ofBytes. apply Forall_take, Forall_drop, bytes_bounded. }
  exists k, (length left - j)%nat. rewrite Hseg, Hbytes. split_and!.
  - done.
  - by apply spaceWidth_take.
  - by rewrite <- Hseg, rev_involutive.
Qed.

(** No part of [SplitComma] holds a comma, and there is at least one
    part. *)
Lemma SplitComma_parts s :
  SplitComma s ≠ [] ∧ ∀ part, part ∈ SplitComma s → 44 ∉ bytes part.
Proof.
  induction s as [|c rest [Hne IH]]; simpl.
  - split; [done|]. intros part ->%list_elem_of_singleton.
    unfold bytes. simpl. apply not_elem_of_nil.
  - destruct (Ascii.eqb c (Ascii.ascii_of_nat 44)) eqn:Hc.
    + split; [done|]. intros part [->|Hin]%elem_of_cons; [|by apply IH].
      unfold bytes. simpl. apply not_elem_of_nil.
    + destruct (SplitComma rest) as [|part0 parts]; [done|].
      split; [done|]. intros part [->|Hin]%elem_of_cons.
      * unfold bytes. simpl. intros [Heq|Hin]%elem_of_cons.
        -- apply Ascii.eqb_neq in Hc. apply Hc.
           rewrite <- (Ascii.ascii_N_embedding c), <- Heq. done.
        -- apply (IH part0); [by apply elem_of_cons; left|done].
      * apply IH. by apply elem_of_cons; right.
Qed.

End strings_theory.

(** * The Porkbun provider and its bootstrap *)

Module porkbun_theory.
Import porkbun.

(** [ValidateConfiguration] looks at the two keys and at nothing
    else. *)
Lemma ValidateConfiguration_None_iff p :
  ValidateConfiguration p = None ↔ apiKey p ≠ "" ∧ secretKey p ≠ "".
Proof.
  unfold ValidateConfiguration.
  destruct (decide (apiKey p = "")), (decide (secretKey p = "")); simpl;
    (split; [done || by intros _|done || by intros [? ?]]).
Qed.

(** X19.  Behind the interface every Porkbun provider has the name
    ["porkbun"]: it registers exactly when no Porkbun provider is
    registered yet, its two keys are non-empty, it lists no domain
    twice and none of its domains is taken; once one is registered,
    any other is refused and the registry is left as it was. *)
Theorem porkbun_Register_iff r p :
  ((registry.Register r (asCertificateProvider p)).2 = None ↔
   registry.providers r !! "porkbun" = None ∧
   apiKey p ≠ "" ∧ secretKey p ≠ "" ∧
   NoDup (domains p) ∧
   ∀ d, d ∈ domains p → registry.domainMap r !! d = None) ∧
  (∀ q, registry.providers r !! "porkbun" = Some q →
     registry.Register r (asCertificateProvider p)
     = (r, Some (registry.ErrAlreadyRegistered "porkbun"))).
Proof.
  split.
  - rewrite registry_theory.Register_None_iff. simpl.
    pose proof (ValidateConfiguration_None_iff p) as Hvalid.
    unfold GetProviderName, GetDomains.
    destruct (ValidateConfiguration p) as [e|]; simpl.
    + split; [by intros (_ & ? & _)|].
      intros (_ & Ha & Hs & _). discriminate (proj2 Hvalid (conj Ha Hs)).
    + destruct (proj1 Hvalid eq_refl) as [Ha Hs].
      split; [by intros (? & _ & ? & ?)|by intros (? & _ & _ & ? & ?)].
  - intros q Hq. unfold registry.Register. simpl. unfold GetProviderName.
    by rewrite Hq.
Qed.

Lemma porkbun_Register_iff_witness :
  registry.Register examples.registryA
    (asCertificateProvider (NewProvider "pk1_other" "sk1_other" ["other.com"]))
  = (examples.registryA, Some (registry.ErrAlreadyRegistered "porkbun")).
Proof.
  apply (proj2 (porkbun_Register_iff examples.registryA
                  (NewProvider "pk1_other" "sk1_other" ["other.com"]))
           examples.providerA).
  by vm_compute.
Defined.

(** The map [SetDomainInfos] builds holds every info under its own
    name. *)
Lemma SetDomainInfos_keyed p infos k info :
  domainInfos (SetDomainInfos p infos) !! k = Some info →
  domainInfo.Name info = k.
Proof.
  unfold SetDomainInfos. simpl.
  assert (Hgen : ∀ m : gmap string domainInfo.Info,
    (∀ k i, m !! k = Some i → domainInfo.Name i = k) →
    ∀ k i, foldl (λ m info, <[domainInfo.Name info := info]> m) m infos
             !! k = Some i → domainInfo.Name i = k).
  { induction infos as [|i0 rest IH]; intros m Hm; simpl; [done|].
    apply IH. intros k' i'.
    destruct (decide (domainInfo.Name i0 = k')) as [<-|Hne].
    - rewrite lookup_insert_eq. by intros [= <-].
    - rewrite lookup_insert_ne by done. apply Hm. }
  apply Hgen. intros k' i'. by rewrite lookup_empty.
Qed.

(** With infos stored under their names, [ListDomainInfo] has one info
    for each managed domain, in the order of the domain list, and the
    info carries the name of the domain. *)
Lemma ListDomainInfo_names p :
  (∀ k info, domainInfos p !! k = Some info → domainInfo.Name info = k) →
  domainInfo.Name <$> ListDomainInfo p = domains p.
Proof.
  intros Hkeyed. unfold ListDomainInfo.
  assert (Hgen : ∀ ds : list string, (∀ d, d ∈ ds → d ∈ domains p) →
    domainInfo.Name <$> omap (GetDomainInfo p) ds = ds).
  { induction ds as [|d ds IH]; intros Hsub; [done|]. simpl.
    unfold GetDomainInfo at 1.
    destruct (domainInfos p !! d) as [info|] eqn:Hinfo; simpl.
    - rewrite (Hkeyed _ _ Hinfo). f_equal. apply IH.
      intros d' Hd'. apply Hsub. by apply elem_of_cons; right.
    - rewrite decide_True by (apply Hsub; by apply elem_of_cons; left).
      simpl. f_equal. apply IH.
      intros d' Hd'. apply Hsub. by apply elem_of_cons; right. }
  by apply Hgen.
Qed.

(** X20.  Whatever infos [SetDomainInfos] is given, and without any,
    [ListDomainInfo] answers with exactly one info per managed domain,
    in the order of [GetDomains] and under the domain's name; a domain
    without a stored info is reported with status ["UNKNOWN"]. *)
Theorem ListDomainInfo_covers_domains p infos :
  domainInfo.Name <$> ListDomainInfo (SetDomainInfos p infos) = GetDomains p ∧
  ∀ apiKey secretKey ds,
    ListDomainInfo (NewProvider apiKey secretKey ds)
    = (λ d, {| domainInfo.Name := d;
               domainInfo.Provider := "porkbun";
               domainInfo.Status := "UNKNOWN";
               domainInfo.CreateDate := time.zero;
               domainInfo.ExpireDate := time.zero;
               domainInfo.AutoRenew := false |}) <$> ds.
Proof.
  split.
  - apply (ListDomainInfo_names (SetDomainInfos p infos)).
    apply SetDomainInfos_keyed.
  - intros apiKey secretKey ds. unfold ListDomainInfo, NewProvider. simpl.
    assert (Hgen : ∀ l : list string, (∀ d, d ∈ l → d ∈ ds) →
      omap (GetDomainInfo
              {| apiKey := apiKey; secretKey := secretKey; domains := ds;
                 domainInfos := ∅ |}) l
      = (λ d, {| domainInfo.Name := d;
                 domainInfo.Provider := "porkbun";
                 domainInfo.Status := "UNKNOWN";
                 domainInfo.CreateDate := time.zero;
                 domainInfo.ExpireDate := time.zero;
                 domainInfo.AutoRenew := false |}) <$> l).
    { induction l as [|d l IH]; intros Hsub; [done|]. simpl.
      unfold GetDomainInfo at 1. simpl. rewrite lookup_empty.
      rewrite decide_True by (apply Hsub; by apply elem_of_cons; left).
      simpl. f_equal. apply IH.
      intros d' Hd'. apply Hsub. by apply elem_of_cons; right. }
    by apply Hgen.
Qed.

(** X21.  [parseDomains] yields at most one domain for each
    comma-separated part of its argument, and every domain it yields is
    non-empty, holds no comma, and neither begins nor ends with white
    space. *)
Theorem parseDomains_elements domainsStr :
  (length (parseDomains domainsStr)
     ≤ length (strings.SplitComma domainsStr))%nat ∧
  ∀ d, d ∈ parseDomains domainsStr →
    d ≠ "" ∧
    (44%N ∉ strings.bytes d) ∧
    strings.spaceWidth (strings.bytes d) = 0 ∧
    strings.spaceWidthRev (rev (strings.bytes d)) = 0.
Proof.
  unfold parseDomains. split.
  - etransitivity; [apply length_filter|]. by rewrite length_fmap.
  - intros d [Hne Hin]%list_elem_of_filter.
    apply list_elem_of_fmap in Hin as [part [-> Hpart]].
    destruct (strings_theory.TrimSpace_bytes part) as (k & m & Hseg & Hl & Hr).
    split_and!; [done| |done|done].
    rewrite Hseg. intros Hcomma.
    apply (proj2 (strings_theory.SplitComma_parts domainsStr) part Hpart).
    by apply (subseteq_drop k), (subseteq_take m).
Qed.

Lemma parseDomains_elements_witness :
  parseDomains "example.com, test.com ,api.example.com,"
    = ["example.com"; "test.com"; "api.example.com"] ∧
  parseDomains "" = [] ∧
  ("test.com" ≠ "" ∧
   (44%N ∉ strings.bytes "test.com") ∧
   strings.spaceWidth (strings.bytes "test.com") = 0 ∧
   strings.spaceWidthRev (rev (strings.bytes "test.com")) = 0).
Proof.
  split; [by vm_compute|]. split; [by vm_compute|].
  refine (proj2 (parseDomains_elements
                   "example.com, test.com ,api.example.com,") "test.com" _).
  vm_compute. apply elem_of_cons; right. apply elem_of_cons; by left.
Defined.

Section Environment.
Variable getenv : string → string.
Variable parseTime : string → option time.Time.

Local Abbreviation IsConfigured := (porkbun.IsConfigured getenv).
Local Abbreviation CreateProvider :=
  (porkbun.CreateProvider getenv parseTime).

Lemma IsConfigured_keys b :
  IsConfigured b = true ↔ getAPIKey getenv b ≠ "" ∧ getSecretKey getenv b ≠ "".
Proof.
  unfold porkbun.IsConfigured.
  rewrite andb_true_iff, !bool_decide_eq_true. done.
Qed.

(** X22.  When [CreateProvider] returns a provider, the bootstrap was
    configured, the provider carries its two keys and passes
    [ValidateConfiguration], it manages at least one domain and has an
    info under the name of each; its domains are the configured list
    when there is one, and otherwise the active domains of the account,
    in the order the account lists them. *)
Theorem CreateProvider_success upstream b p :
  CreateProvider upstream b = inr p →
  IsConfigured b = true ∧
  apiKey p = getAPIKey getenv b ∧
  secretKey p = getSecretKey getenv b ∧
  ValidateConfiguration p = None ∧
  GetDomains p ≠ [] ∧
  domainInfo.Name <$> ListDomainInfo p = GetDomains p ∧
  (getDomains getenv b ≠ "" →
     GetDomains p = parseDomains (getDomains getenv b)) ∧
  (getDomains getenv b = "" →
     ∃ ds, Ping upstream = None ∧ ListDomains upstream = inr ds ∧
           GetDomains p
           = DomainName <$> filter (λ d, DomainStatus d = "ACTIVE") ds).
Proof.
  unfold porkbun.CreateProvider.
  destruct (decide (getAPIKey getenv b = "")) as [|Ha]; [done|].
  destruct (decide (getSecretKey getenv b = "")) as [|Hs]; [done|].
  assert (Hshape : ∀ ds infos,
    match ValidateConfiguration
            (SetDomainInfos
               (NewProvider (getAPIKey getenv b) (getSecretKey getenv b) ds)
               infos) with
    | Some err => inl (ErrValidationFailed err)
    | None =>
        inr (SetDomainInfos
               (NewProvider (getAPIKey getenv b) (getSecretKey getenv b) ds)
               infos)
    end = inr p →
    ds ≠ [] →
    IsConfigured b = true ∧ apiKey p = getAPIKey getenv b ∧
    secretKey p = getSecretKey getenv b ∧ ValidateConfiguration p = None ∧
    GetDomains p ≠ [] ∧
    domainInfo.Name <$> ListDomainInfo p = GetDomains p ∧ GetDomains p = ds).
  { intros ds infos.
    destruct (ValidateConfiguration _) as [err|] eqn:Hvalid; [done|].
    intros [= <-] Hds. split_and!; try done.
    - by apply IsConfigured_keys.
    - apply (ListDomainInfo_names (SetDomainInfos _ infos)).
      apply SetDomainInfos_keyed. }
  destruct (decide (getDomains getenv b ≠ "")) as [Hd|Hd].
  - destruct (decide (length (parseDomains (getDomains getenv b)) = 0))
      as [|Hlen]; [done|].
    intros Hp. destruct (Hshape _ _ Hp) as (? & ? & ? & ? & ? & ? & ?).
    { intros Hnil. by rewrite Hnil in Hlen. }
    split_and!; done.
  - destruct (Ping upstream) as [err|] eqn:Hping; [done|].
    destruct (ListDomains upstream) as [err|ds] eqn:Hlist; [done|].
    destruct (decide (length ds = 0)); [done|].
    destruct (decide (length (DomainName <$> _) = 0)) as [|Hlen]; [done|].
    intros Hp. destruct (Hshape _ _ Hp) as (? & ? & ? & ? & ? & ? & ?).
    { intros Hnil. by rewrite Hnil in Hlen. }
    split_and!; try done. intros _. by exists ds.
Qed.

(** X23.  [CreateProvider] reports a missing key exactly when
    [IsConfigured] is false, never reports a failed validation, and
    does not consult the account when a key is missing or a domain list
    is configured. *)
Theorem CreateProvider_errors upstream b :
  (IsConfigured b = false ↔
   CreateProvider upstream b = inl ErrAPIKeyNotConfigured ∨
   CreateProvider upstream b = inl ErrSecretKeyNotConfigured) ∧
  (∀ e, CreateProvider upstream b ≠ inl (ErrValidationFailed e)) ∧
  (IsConfigured b = false ∨ getDomains getenv b ≠ "" →
   ∀ upstream', CreateProvider upstream' b = CreateProvider upstream b).
Proof.
  pose proof (IsConfigured_keys b) as Hkeys.
  unfold porkbun.CreateProvider.
  destruct (decide (getAPIKey getenv b = "")) as [Ha|Ha].
  { split_and!; [|done|done]. split; [by left|]. intros _.
    destruct (IsConfigured b); [|done]. by destruct (proj1 Hkeys eq_refl). }
  destruct (decide (getSecretKey getenv b = "")) as [Hs|Hs].
  { split_and!; [|done|done]. split; [by right|]. intros _.
    destruct (IsConfigured b); [|done]. by destruct (proj1 Hkeys eq_refl). }
  assert (Hconf : IsConfigured b = true) by (by apply Hkeys).
  assert (Hvalid : ∀ ds infos,
    ValidateConfiguration
      (SetDomainInfos
         (NewProvider (getAPIKey getenv b) (getSecretKey getenv b) ds) infos)
    = None).
  { intros ds infos. by apply ValidateConfiguration_None_iff. }
  split_and!.
  - rewrite Hconf. split; [done|].
    destruct (decide (getDomains getenv b ≠ "")).
    + destruct (decide (length _ = 0)); [by intros [|]|].
      rewrite Hvalid. by intros [|].
    + destruct (Ping upstream); [by intros [|]|].
      destruct (ListDomains upstream) as [|ds]; [by intros [|]|].
      destruct (decide (length ds = 0)); [by intros [|]|].
      destruct (decide (length _ = 0)); [by intros [|]|].
      rewrite Hvalid. by intros [|].
  - intros e.
    destruct (decide (getDomains getenv b ≠ "")).
    + destruct (decide (length _ = 0)); [done|]. by rewrite Hvalid.
    + destruct (Ping upstream); [done|].
      destruct (ListDomains upstream) as [|ds]; [done|].
      destruct (decide (length ds = 0)); [done|].
      destruct (decide (length _ = 0)); [done|]. by rewrite Hvalid.
  - rewrite Hconf. intros [|Hd] upstream'; [done|].
    by destruct (decide (getDomains getenv b ≠ "")).
Qed.

End Environment.

Lemma CreateProvider_success_witness :
  let b := examples.porkbunBootstrap in
  let getenv := examples.noEnvironment in
  let parseTime := λ _ : string, @None time.Time in
  porkbun.IsConfigured getenv b = true ∧
  apiKey examples.porkbunProvider = getAPIKey getenv b ∧
  secretKey examples.porkbunProvider = getSecretKey getenv b ∧
  ValidateConfiguration examples.porkbunProvider = None ∧
  GetDomains examples.porkbunProvider ≠ [] ∧
  domainInfo.Name <$> ListDomainInfo examples.porkbunProvider
    = GetDomains examples.porkbunProvider ∧
  (getDomains getenv b ≠ "" →
     GetDomains examples.porkbunProvider
     = parseDomains (getDomains getenv b)) ∧
  (getDomains getenv b = "" →
     ∃ ds, Ping examples.upstreamDown = None ∧
           ListDomains examples.upstreamDown = inr ds ∧
           GetDomains examples.porkbunProvider
           = DomainName <$> filter (λ d, DomainStatus d = "ACTIVE") ds).
Proof.
  intros b getenv parseTime.
  apply (CreateProvider_success getenv parseTime examples.upstreamDown b
           examples.porkbunProvider).
  by vm_compute.
Defined.

Lemma CreateProvider_errors_witness :
  porkbun.CreateProvider examples.noEnvironment (λ _, None)
    examples.upstreamDown NewBootstrap = inl ErrAPIKeyNotConfigured ∨
  porkbun.CreateProvider examples.noEnvironment (λ _, None)
    examples.upstreamDown NewBootstrap = inl ErrSecretKeyNotConfigured.
Proof.
  apply (proj1 (CreateProvider_errors examples.noEnvironment (λ _, None)
                  examples.upstreamDown NewBootstrap)).
  reflexivity.
Defined.


End porkbun_theory.

(** * Start-up with the Porkbun bootstrap *)

Module cert_theory.
Import porkbun.

Section Environment.
Variable getenv : string → string.
Variable parseTime : string → option time.Time.

Local Abbreviation IsConfigured := (porkbun.IsConfigured getenv).
Local Abbreviation CreateProvider :=
  (porkbun.CreateProvider getenv parseTime).
Local Abbreviation InitializeCertificateSystem :=
  (cert.InitializeCertificateSystem getenv parseTime).

(** A provider [CreateProvider] returns has passed
    [ValidateConfiguration], and the bootstrap was configured. *)
Lemma CreateProvider_valid upstream b p :
  CreateProvider upstream b = inr p →
  ValidateConfiguration p = None ∧ IsConfigured b = true.
Proof.
  unfold porkbun.CreateProvider, porkbun.IsConfigured.
  destruct (decide (getAPIKey getenv b = "")) as [|Ha]; [done|].
  destruct (decide (getSecretKey getenv b = "")) as [|Hs]; [done|].
  rewrite !bool_decide_eq_true_2 by done.
  destruct (decide (getDomains getenv b ≠ "")).
  - destruct (decide (length _ = 0)); [done|].
    destruct (ValidateConfiguration _) eqn:Hvalid; [done|]. by intros [= <-].
  - destruct (Ping upstream); [done|].
    destruct (ListDomains upstream) as [|ds]; [done|].
    destruct (decide (length ds = 0)); [done|].
    destruct (decide (length _ = 0)); [done|].
    destruct (ValidateConfiguration _) eqn:Hvalid; [done|]. by intros [= <-].
Qed.

(** X24.  Start-up as the root command runs it, [InitializeProviders]
    on the manager of [InitializeCertificateSystem].  Without both keys
    it fails for want of a configured provider and the bootstrap is not
    asked for one; with both keys an error of [CreateProvider] is
    returned under the name ["porkbun"]; and when [CreateProvider]
    returns a provider, start-up succeeds exactly when the provider
    lists no domain twice: then the domains that resolve are those of
    the provider, and they resolve to it, and otherwise start-up fails,
    reporting a repeated domain as already managed by ["porkbun"]. *)
Theorem start_up_with_porkbun upstream flags :
  let bm := InitializeCertificateSystem upstream flags in
  let result := registry.InitializeProviders bm in
  (IsConfigured flags = false →
   result = (bm, Some registry.ErrNoProvidersConfigured)) ∧
  (∀ err, IsConfigured flags = true →
     CreateProvider upstream flags = inl err →
     result
     = (bm, Some (registry.ErrCreateProvider "porkbun" (errorText err)))) ∧
  (∀ p, CreateProvider upstream flags = inr p →
     (result.2 = None ↔ NoDup (GetDomains p)) ∧
     (NoDup (GetDomains p) → ∀ d,
        registry.GetProviderForDomain (registry.registry result.1) d
        = if decide (d ∈ GetDomains p) then inr (asCertificateProvider p)
          else inl (registry.ErrNoProviderForDomain d)) ∧
     (¬ NoDup (GetDomains p) →
      ∃ d, d ∈ GetDomains p ∧
        result.2
        = Some (registry.ErrRegisterProvider "porkbun"
                  (registry.ErrDomainAlreadyManaged d "porkbun")))).
Proof.
  intros bm result. subst bm result.
  unfold cert.InitializeCertificateSystem, registry.InitializeProviders.
  simpl. split_and!.
  - intros ->. done.
  - intros err -> ->. done.
  - intros p Hp. destruct (CreateProvider_valid _ _ _ Hp) as [Hvalid ->].
    rewrite Hp. simpl.
    pose proof (registry_theory.Register_None_iff
                  registry.NewCertificateProviderRegistry
                  (asCertificateProvider p)) as Hiff.
    pose proof (registry_theory.Register_ok
                  registry.NewCertificateProviderRegistry
                  (asCertificateProvider p)) as Hok.
    pose proof (registry_theory.claimDomains_own_conflict
                  (asCertificateProvider p) (GetDomains p) ∅) as Hown.
    revert Hiff Hok. unfold registry.Register. simpl.
    rewrite lookup_empty, Hvalid. simpl.
    destruct (registry.claimDomains _ _ _) as [dm [e|]] eqn:Hloop; simpl in *.
    + intros Hiff _.
      assert (Hdup : ¬ NoDup (GetDomains p)).
      { intros Hnd. assert (Some e = None) as [=]. apply Hiff.
        split_and!; [done|done|done|]. intros d _. apply lookup_empty. }
      split_and!; [by split|done|].
      intros _. destruct Hown as [|(d & Hd & [= ->])]; [|done|by eauto].
      intros d q _. by rewrite lookup_empty.
    + intros Hiff Hok. destruct (proj1 Hiff eq_refl) as (_ & _ & Hnd & _).
      split_and!; [done| |done].
      intros _ d. unfold registry.GetProviderForDomain. simpl.
      destruct (Hok _ eq_refl) as [_ Hdm]. simpl in Hdm. rewrite Hdm.
      destruct (decide (d ∈ GetDomains p)); [done|]. by rewrite lookup_empty.
Qed.

End Environment.

Lemma start_up_with_porkbun_witness :
  ∃ d,
    (registry.InitializeProviders
       (cert.InitializeCertificateSystem examples.noEnvironment (λ _, None)
          examples.upstreamDown examples.porkbunBootstrapTwice)).2
    = Some (registry.ErrRegisterProvider "porkbun"
              (registry.ErrDomainAlreadyManaged d "porkbun")).
Proof.
  destruct (proj2 (proj2 (start_up_with_porkbun examples.noEnvironment
                            (λ _, None) examples.upstreamDown
                            examples.porkbunBootstrapTwice))
              (SetDomainInfos
                 (NewProvider "pk1_key" "sk1_secret"
                    ["example.com"; "test.com"; "example.com"])
                 ((λ d, {| domainInfo.Name := d;
                           domainInfo.Provider := "porkbun";
                           domainInfo.Status := "CONFIGURED";
                           domainInfo.CreateDate := time.zero;
                           domainInfo.ExpireDate := time.zero;
                           domainInfo.AutoRenew := false |})
                  <$> ["example.com"; "test.com"; "example.com"])))
    as (_ & _ & Hdup).
  - by vm_compute.
  - destruct Hdup as (d & _ & Hd); [|by exists d].
    intros Hnd. apply NoDup_cons in Hnd as [Hnotin _]. apply Hnotin.
    apply elem_of_cons; right. apply elem_of_cons; by left.
Defined.

End cert_theory.
